(** * decode_zip.py: read a base64 text file, decode it, write the bytes

    The script has three effects, in this order:

      with open('ghana_voice_ledger_base64.txt', 'r') as f:
          data = f.read().strip()
      with open('GhanaVoiceLedger.zip', 'wb') as f:
          f.write(base64.b64decode(data))
      print("ZIP file created successfully: GhanaVoiceLedger.zip")

    It is embedded as a computation in a state-and-exception monad over a
    small world (the two files and standard output).  The library calls it
    makes are embedded alongside it: [str.strip], text-mode reading with
    universal newlines, [base64.b64decode] and the decoding loop of
    [binascii.a2b_base64] (CPython 3.11 to 3.13, non-strict mode, which is
    what the default [validate=False] selects). *)

From Stdlib Require Import PeanoNat NArith List Bool Lia String Ascii.
Import ListNotations.
Local Open Scope N_scope.

(** ** Data *)

(** A Python [str] is a sequence of Unicode code points, a [bytes] object a
    sequence of integers below 256. *)
Definition text := list N.
Definition bytes := list N.

Fixpoint text_of_string (s : string) : text :=
  match s with
  | EmptyString => []
  | String a r => N_of_ascii a :: text_of_string r
  end.

Definition is_byte (b : N) : Prop := b < 256.

(** ** [str] methods *)

Module Str.

(** The code points for which [str.isspace] holds. *)
Definition whitespace : list N :=
  [9; 10; 11; 12; 13; 28; 29; 30; 31; 32; 133; 160; 5760;
   8192; 8193; 8194; 8195; 8196; 8197; 8198; 8199; 8200; 8201; 8202;
   8232; 8233; 8239; 8287; 12288].

Definition isspace (c : N) : bool := existsb (N.eqb c) whitespace.

Fixpoint lstrip (s : text) : text :=
  match s with
  | [] => []
  | c :: r => if isspace c then lstrip r else s
  end.

Definition rstrip (s : text) : text := rev (lstrip (rev s)).

(** [s.strip()]: the left end is trimmed first, then the right end. *)
Definition strip (s : text) : text := rstrip (lstrip s).

(** [s.encode('ascii')] succeeds exactly on code points below 128. *)
Definition is_ascii (c : N) : bool := c <? 128.
Definition isascii (s : text) : bool := forallb is_ascii s.

End Str.

(** ** Text-mode reading *)

(** [open(path, 'r')] reads with universal newlines: a carriage return,
    alone or followed by a line feed, is delivered as one line feed. *)
Fixpoint translate_newlines (s : text) : text :=
  match s with
  | [] => []
  | c :: r =>
    if c =? 13 then
      10 :: match r with
            | [] => []
            | d :: r' => if d =? 10 then translate_newlines r'
                         else translate_newlines r
            end
    else c :: translate_newlines r
  end.

(** ** Exceptions *)

Inductive binascii_error : Type :=
| Incorrect_padding
| Invalid_length (data_chars : N).

Inductive exn : Type :=
| FileNotFoundError
| PermissionError
| ValueError
| binascii_Error (e : binascii_error).

(** ** [binascii] *)

Module binascii.

Definition BASE64_PAD : N := 61.

(** The encoding alphabet, indexed by sextet. *)
Definition table_b2a_base64 : text :=
  text_of_string
    "ABCDEFGHIJKLMNOPQRSTUVWXYZabcdefghijklmnopqrstuvwxyz0123456789+/".

Definition b2a (sextet : N) : N := nth (N.to_nat sextet) table_b2a_base64 0.

(** The decoding table: 255 (the [unsigned char] -1) marks a character
    outside the alphabet; the pad character maps to 0 but is tested for
    before the table is consulted. *)
Definition table_a2b_base64 : list N :=
  [255;255;255;255; 255;255;255;255; 255;255;255;255; 255;255;255;255;
   255;255;255;255; 255;255;255;255; 255;255;255;255; 255;255;255;255;
   255;255;255;255; 255;255;255;255; 255;255;255; 62; 255;255;255; 63;
    52; 53; 54; 55;  56; 57; 58; 59;  60; 61;255;255; 255;  0;255;255;
   255;  0;  1;  2;   3;  4;  5;  6;   7;  8;  9; 10;  11; 12; 13; 14;
    15; 16; 17; 18;  19; 20; 21; 22;  23; 24; 25;255; 255;255;255;255;
   255; 26; 27; 28;  29; 30; 31; 32;  33; 34; 35; 36;  37; 38; 39; 40;
    41; 42; 43; 44;  45; 46; 47; 48;  49; 50; 51;255; 255;255;255;255;
   255;255;255;255; 255;255;255;255; 255;255;255;255; 255;255;255;255;
   255;255;255;255; 255;255;255;255; 255;255;255;255; 255;255;255;255;
   255;255;255;255; 255;255;255;255; 255;255;255;255; 255;255;255;255;
   255;255;255;255; 255;255;255;255; 255;255;255;255; 255;255;255;255;
   255;255;255;255; 255;255;255;255; 255;255;255;255; 255;255;255;255;
   255;255;255;255; 255;255;255;255; 255;255;255;255; 255;255;255;255;
   255;255;255;255; 255;255;255;255; 255;255;255;255; 255;255;255;255;
   255;255;255;255; 255;255;255;255; 255;255;255;255; 255;255;255;255].

Definition a2b (ch : N) : N := nth (N.to_nat ch) table_a2b_base64 255.

(** A store into the [unsigned char] output buffer. *)
Definition u8 (x : N) : N := N.land x 255.

(** The variables of the decoding loop. *)
Record a2b_state : Type := mk_a2b {
  quad_pos : N;
  leftchar : N;
  pads : N;
  bin_data : bytes
}.

Definition a2b_init : a2b_state := mk_a2b 0 0 0 [].

Definition emit (st : a2b_state) (q l : N) (b : N) : a2b_state :=
  mk_a2b q l 0 (bin_data st ++ [u8 b]).

(** What one iteration of the loop does: leave the loop for [done], or
    go on with the next character. *)
Inductive a2b_step_result : Type :=
| Done
| Continue (st : a2b_state).

Definition a2b_step (st : a2b_state) (this_ch : N) : a2b_step_result :=
  if this_ch =? BASE64_PAD then
    if 2 <=? quad_pos st then
      let pads' := pads st + 1 in
      if 4 <=? quad_pos st + pads' then Done
      else Continue (mk_a2b (quad_pos st) (leftchar st) pads' (bin_data st))
    else Continue st
  else
    let v := a2b this_ch in
    if 64 <=? v then Continue st
    else if quad_pos st =? 0 then
      Continue (mk_a2b 1 v 0 (bin_data st))
    else if quad_pos st =? 1 then
      Continue (emit st 2 (N.land v 15)
                  (N.lor (N.shiftl (leftchar st) 2) (N.shiftr v 4)))
    else if quad_pos st =? 2 then
      Continue (emit st 3 (N.land v 3)
                  (N.lor (N.shiftl (leftchar st) 4) (N.shiftr v 2)))
    else
      Continue (emit st 0 0 (N.lor (N.shiftl (leftchar st) 6) v)).

(** After the loop: an unfinished quad is an error. *)
Definition a2b_finish (st : a2b_state) : bytes + exn :=
  if quad_pos st =? 0 then inl (bin_data st)
  else if quad_pos st =? 1 then
    inr (binascii_Error
           (Invalid_length (N.of_nat (List.length (bin_data st)) / 3 * 4 + 1)))
  else inr (binascii_Error Incorrect_padding).

Fixpoint a2b_loop (ascii_data : bytes) (st : a2b_state) : bytes + exn :=
  match ascii_data with
  | [] => a2b_finish st
  | this_ch :: rest =>
    match a2b_step st this_ch with
    | Done => inl (bin_data st)
    | Continue st' => a2b_loop rest st'
    end
  end.

(** [binascii.a2b_base64(data, strict_mode=False)]. *)
Definition a2b_base64 (data : bytes) : bytes + exn := a2b_loop data a2b_init.

End binascii.

(** ** [base64] *)

Module base64.

(** [_bytes_from_decode_data] on a [str] argument. *)
Definition _bytes_from_decode_data (s : text) : bytes + exn :=
  if Str.isascii s then inl s else inr ValueError.

(** [base64.b64decode(s)] with the defaults [altchars=None] and
    [validate=False]. *)
Definition b64decode (s : text) : bytes + exn :=
  match _bytes_from_decode_data s with
  | inl data => binascii.a2b_base64 data
  | inr e => inr e
  end.

(** The standard encoding (RFC 4648, section 4), as [base64.b64encode]
    computes it: three bytes give four characters, and a last group of
    one or two bytes is padded with the pad character. *)
Fixpoint b64encode (B : bytes) : text :=
  match B with
  | [] => []
  | [a] =>
    [binascii.b2a (N.shiftr a 2);
     binascii.b2a (N.shiftl (N.land a 3) 4);
     binascii.BASE64_PAD; binascii.BASE64_PAD]
  | [a; b] =>
    [binascii.b2a (N.shiftr a 2);
     binascii.b2a (N.lor (N.shiftl (N.land a 3) 4) (N.shiftr b 4));
     binascii.b2a (N.shiftl (N.land b 15) 2);
     binascii.BASE64_PAD]
  | a :: b :: c :: rest =>
    binascii.b2a (N.shiftr a 2)
    :: binascii.b2a (N.lor (N.shiftl (N.land a 3) 4) (N.shiftr b 4))
    :: binascii.b2a (N.lor (N.shiftl (N.land b 15) 2) (N.shiftr c 6))
    :: binascii.b2a (N.land c 63)
    :: b64encode rest
  end.

End base64.

(** ** The world the script runs in *)

(** The input file is missing, or cannot be opened or read as text, or
    holds characters: the code points the text layer decodes from it,
    before newline translation. *)
Inductive input_state : Type :=
| Missing
| Unreadable
| Content (chars : text).

Record world : Type := mk_world {
  input_file : input_state;       (* ghana_voice_ledger_base64.txt *)
  output_file : option bytes;     (* GhanaVoiceLedger.zip, None when absent *)
  stdout : list string
}.

Definition input_path : string := "ghana_voice_ledger_base64.txt".
Definition output_path : string := "GhanaVoiceLedger.zip".

(** ** A state-and-exception monad *)

Definition M (A : Type) : Type := world -> (A + exn) * world.

Definition ret {A} (a : A) : M A := fun w => (inl a, w).
Definition raise {A} (e : exn) : M A := fun w => (inr e, w).
Definition bind {A B} (c : M A) (k : A -> M B) : M B :=
  fun w =>
    match c w with
    | (inl a, w') => k a w'
    | (inr e, w') => (inr e, w')
    end.
Definition lift {A} (r : A + exn) : M A := fun w => (r, w).

Declare Scope py_scope.
Delimit Scope py_scope with py.
Notation "x <- c ;; k" := (bind c (fun x => k))
  (at level 100, c at next level, right associativity) : py_scope.
Notation "c ;; k" := (bind c (fun _ => k))
  (at level 100, right associativity) : py_scope.
Local Open Scope py_scope.

(** ** File operations *)

(** [open(input_path, 'r')] followed by [f.read()]. *)
Definition read_input : M text :=
  fun w =>
    match input_file w with
    | Missing => raise FileNotFoundError w
    | Unreadable => raise PermissionError w
    | Content chars => ret (translate_newlines chars) w
    end.

(** [open(output_path, 'wb')]: the file is created if absent and truncated
    if present, at the time it is opened. *)
Definition open_output_wb : M unit :=
  fun w => (inl tt, mk_world (input_file w) (Some []) (stdout w)).

(** [f.write(b)] on the handle just opened: the bytes go to the end of
    what the file holds. *)
Definition write_output (b : bytes) : M unit :=
  fun w =>
    let held := match output_file w with Some old => old | None => [] end in
    (inl tt, mk_world (input_file w) (Some (held ++ b)) (stdout w)).

Definition print (line : string) : M unit :=
  fun w => (inl tt, mk_world (input_file w) (output_file w) (stdout w ++ [line])).

(** ** The script *)

Definition confirmation : string :=
  "ZIP file created successfully: GhanaVoiceLedger.zip".

(** Leaving a [with] block closes the file and passes on any exception;
    closing changes nothing in the world, so each block is its body. *)
Definition run : M unit :=
  data <- (raw <- read_input ;; ret (Str.strip raw)) ;;
  (open_output_wb ;;
   decoded <- lift (base64.b64decode data) ;;
   write_output decoded) ;;
  print confirmation.

(** The outcome and the world left behind. *)
Definition outcome (w : world) : unit + exn := fst (run w).
Definition after (w : world) : world := snd (run w).

(** The text handed to the decoder: the [data] variable of the script. *)
Definition data_of (chars : text) : text := Str.strip (translate_newlines chars).

(** ** Vocabulary of the statements *)

(** A data character is one of the 64 symbols of the alphabet; a
    significant character is a data character or the pad character.  The
    decoding loop looks at nothing else. *)
Definition is_data (c : N) : bool :=
  negb (c =? binascii.BASE64_PAD) && (binascii.a2b c <? 64).
Definition significant (c : N) : bool :=
  (c =? binascii.BASE64_PAD) || (binascii.a2b c <? 64).

Definition failed {A} (r : A + exn) : Prop := exists e, r = inr e.

(** A text is bare when it is empty or neither starts nor ends with a
    space: trimming leaves it alone. *)
Inductive bare : text -> Prop :=
| bare_nil : bare []
| bare_ends (a z : N) (m m' : text) :
    Str.isspace a = false -> Str.isspace z = false ->
    a :: m = m' ++ [z] -> bare (a :: m).

(** A plain character is ASCII and no space. *)
Definition plain (c : N) : bool := Str.is_ascii c && negb (Str.isspace c).

(** Too little padding: after [n] data characters, [p] pad characters do
    not complete the quad in these cases. *)
Definition padding_invalid (n : N) (p : nat) : Prop :=
  n mod 4 = 1 \/ (n mod 4 = 2 /\ (p < 2)%nat) \/ (n mod 4 = 3 /\ p = 0%nat).

(** Texts and bytes used as examples. *)
Definition hello_b64 : text := text_of_string "aGVsbG8=".
Definition hello : bytes := text_of_string "hello".
Definition zip_magic : bytes := [80; 75; 3; 4].

(** The state of the loop with bytes put in front of its output buffer. *)
Definition with_prefix (pre : bytes) (st : binascii.a2b_state)
  : binascii.a2b_state :=
  binascii.mk_a2b (binascii.quad_pos st) (binascii.leftchar st)
    (binascii.pads st) (pre ++ binascii.bin_data st).

(** What an unfinished quad still owes: with [k] data characters read and
    [m] bytes written, [3 * k = 4 * m + quad_debt quad_pos]. *)
Definition quad_debt (q : N) : N := if q =? 0 then 0 else 4 - q.

(** A text with each line feed written as carriage return, line feed. *)
Definition to_crlf (s : text) : text :=
  flat_map (fun c => if c =? 10 then [13; 10] else [c]) s.

(** A check of all numbers below a bound, by evaluation. *)
Fixpoint all_below (n : nat) (p : N -> bool) : bool :=
  match n with
  | O => true
  | S k => p (N.of_nat k) && all_below k p
  end.

(** * Properties *)

(** ** Bounded checks *)

Lemma all_below_spec (n : nat) (p : N -> bool) :
  all_below n p = true -> forall x, x < N.of_nat n -> p x = true.
Proof.
  induction n as [|k IH]; simpl; intros H x Hx; [lia|].
  apply andb_true_iff in H as [Hk Hrest].
  destruct (N.eq_dec x (N.of_nat k)) as [->|Hne]; [exact Hk|].
  apply IH; [exact Hrest|lia].
Qed.

(** ** Trimming *)

Lemma lstrip_space_prefix (l s : text) :
  forallb Str.isspace l = true -> Str.lstrip (l ++ s) = Str.lstrip s.
Proof.
  induction l as [|c l IH]; simpl; intros H; [reflexivity|].
  apply andb_true_iff in H as [Hc Hl]. rewrite Hc. auto.
Qed.

Lemma lstrip_all_space (l : text) :
  forallb Str.isspace l = true -> Str.lstrip l = [].
Proof.
  intros H. rewrite <- (app_nil_r l), lstrip_space_prefix; auto.
Qed.

Lemma lstrip_head (c : N) (s : text) :
  Str.isspace c = false -> Str.lstrip (c :: s) = c :: s.
Proof. intros H; simpl; now rewrite H. Qed.

(** [lstrip] splits a text into a prefix of spaces and a rest that is
    empty or starts with a character that is no space. *)
Lemma lstrip_split (s : text) :
  exists l, s = l ++ Str.lstrip s /\ forallb Str.isspace l = true /\
    (Str.lstrip s = [] \/
     exists a m, Str.lstrip s = a :: m /\ Str.isspace a = false).
Proof.
  induction s as [|c s (l & Hs & Hl & Hm)]; simpl.
  - exists []; auto.
  - destruct (Str.isspace c) eqn:Hc.
    + exists (c :: l); simpl. rewrite Hc, Hl. repeat split; auto.
      now rewrite <- Hs.
    + exists []; repeat split; auto. right; eauto.
Qed.

Lemma rstrip_space_suffix (s r : text) :
  forallb Str.isspace r = true -> Str.rstrip (s ++ r) = Str.rstrip s.
Proof.
  intros H. unfold Str.rstrip. rewrite rev_app_distr, lstrip_space_prefix; auto.
  rewrite forallb_forall in *. intros x Hx. apply H, in_rev; exact Hx.
Qed.

Lemma rstrip_last (s : text) (z : N) :
  Str.isspace z = false -> Str.rstrip (s ++ [z]) = s ++ [z].
Proof.
  intros H. unfold Str.rstrip. rewrite rev_app_distr; simpl.
  rewrite H; simpl. now rewrite rev_involutive.
Qed.

Lemma rstrip_all_space (r : text) :
  forallb Str.isspace r = true -> Str.rstrip r = [].
Proof. intros H. now rewrite <- (app_nil_l r), rstrip_space_suffix. Qed.

Lemma strip_unique (l m r : text) :
  forallb Str.isspace l = true -> forallb Str.isspace r = true -> bare m ->
  Str.strip (l ++ m ++ r) = m.
Proof.
  intros Hl Hr Hm. unfold Str.strip. rewrite lstrip_space_prefix by exact Hl.
  destruct Hm as [|a z m m' Ha Hz E]; simpl.
  - rewrite (lstrip_all_space r Hr). reflexivity.
  - rewrite Ha. change (a :: m ++ r) with ((a :: m) ++ r).
    rewrite rstrip_space_suffix by exact Hr. rewrite E. now apply rstrip_last.
Qed.

Lemma rstrip_split (s : text) :
  exists r, s = Str.rstrip s ++ r /\ forallb Str.isspace r = true /\
    (Str.rstrip s = [] \/
     exists m z, Str.rstrip s = m ++ [z] /\ Str.isspace z = false).
Proof.
  destruct (lstrip_split (rev s)) as (l & Hs & Hl & Hm).
  exists (rev l). unfold Str.rstrip. repeat split.
  - rewrite <- rev_app_distr, <- Hs. now rewrite rev_involutive.
  - rewrite forallb_forall in *. intros x Hx. apply Hl, in_rev; exact Hx.
  - destruct Hm as [->|(a & m & -> & Ha)]; [now left|right].
    exists (rev m), a; simpl; auto.
Qed.

Lemma strip_split (s : text) :
  exists l r, s = l ++ Str.strip s ++ r /\
    forallb Str.isspace l = true /\ forallb Str.isspace r = true /\
    bare (Str.strip s).
Proof.
  destruct (lstrip_split s) as (l & Hs & Hl & Hm).
  destruct (rstrip_split (Str.lstrip s)) as (r & Hs' & Hr & Hm').
  fold (Str.strip s) in Hs', Hm'.
  exists l, r. repeat split; auto.
  - now rewrite <- Hs'.
  - destruct Hm' as [->|(m & z & E & Hz)]; [constructor|].
    destruct Hm as [E0|(a & m0 & E0 & Ha)].
    + rewrite E0 in Hs'. symmetry in Hs'.
      apply app_eq_nil in Hs' as [Hnil _]. rewrite Hnil; constructor.
    + rewrite E. rewrite E0, E in Hs'.
      destruct m as [|b m]; simpl in *.
      * apply (bare_ends z z [] []); auto.
      * injection Hs' as Hab _. subst b.
        apply (bare_ends a z _ (a :: m)); auto.
Qed.

Lemma strip_bare (m : text) : bare m -> Str.strip m = m.
Proof.
  intros H. rewrite <- (strip_unique [] m []) at 2; auto.
  now rewrite app_nil_r.
Qed.

Lemma strip_trailing_space (s : text) (c : N) :
  Str.isspace c = true -> Str.strip (s ++ [c]) = Str.strip s.
Proof.
  intros Hc. destruct (strip_split s) as (l & r & E & Hl & Hr & Hb).
  rewrite E at 1. rewrite <- !app_assoc.
  apply strip_unique; auto.
  rewrite forallb_app, Hr; simpl. now rewrite Hc.
Qed.

(** ** Universal newlines *)

(** Induction along the cases of [translate_newlines]. *)
Lemma translate_newlines_ind (P : text -> Prop) :
  P [] ->
  (forall c r, c <> 13 -> P r -> P (c :: r)) ->
  P [13] ->
  (forall r, P r -> P (13 :: 10 :: r)) ->
  (forall d r, d <> 10 -> P (d :: r) -> P (13 :: d :: r)) ->
  forall s, P s.
Proof.
  intros H0 Hother Hcr Hcrlf Hcrx s.
  enough (P s /\ forall c, P (c :: s)) by tauto.
  induction s as [|a s [IH1 IH2]].
  - split; auto. intros c. destruct (N.eq_dec c 13) as [->|]; auto.
  - split; auto. intros c. destruct (N.eq_dec c 13) as [->|]; auto.
    destruct (N.eq_dec a 10) as [->|]; auto.
Qed.

Lemma translate_other (c : N) (r : text) :
  c <> 13 -> translate_newlines (c :: r) = c :: translate_newlines r.
Proof. intros H. apply N.eqb_neq in H. simpl. now rewrite H. Qed.

Lemma translate_cr_other (d : N) (r : text) :
  d <> 10 ->
  translate_newlines (13 :: d :: r) = 10 :: translate_newlines (d :: r).
Proof.
  intros H. apply N.eqb_neq in H.
  change (translate_newlines (13 :: d :: r))
    with (10 :: (if d =? 10 then translate_newlines r
                 else translate_newlines (d :: r))).
  now rewrite H.
Qed.

(** Translation distributes over a seam that no CR-LF pair straddles:
    either the right part does not start with a line feed ... *)
Lemma translate_app_no_lf (x y : text) :
  (forall d y', y = d :: y' -> d <> 10) ->
  translate_newlines (x ++ y) = translate_newlines x ++ translate_newlines y.
Proof.
  intros Hy. induction x as [|c r Hc IH| |r IH|d r Hd IH]
    using translate_newlines_ind.
  - reflexivity.
  - cbn [app]. rewrite !translate_other by exact Hc. now rewrite IH.
  - destruct y as [|d y']; [reflexivity|].
    cbn [app]. rewrite translate_cr_other by (eapply Hy; reflexivity).
    reflexivity.
  - cbn [app]. simpl. now rewrite IH.
  - cbn [app] in *. rewrite !translate_cr_other by exact Hd. now rewrite IH.
Qed.

(** ... or the left part does not end with a carriage return. *)
Lemma translate_app_no_cr (x y : text) (z : N) :
  z <> 13 ->
  translate_newlines ((x ++ [z]) ++ y)
  = translate_newlines (x ++ [z]) ++ translate_newlines y.
Proof.
  intros Hz. induction x as [|c r Hc IH| |r IH|d r Hd IH]
    using translate_newlines_ind.
  - cbn [app]. now rewrite !translate_other by exact Hz.
  - cbn [app] in *. rewrite !translate_other by exact Hc. now rewrite IH.
  - cbn [app]. destruct (N.eq_dec z 10) as [->|Hz10]; [reflexivity|].
    rewrite !translate_cr_other by exact Hz10.
    now rewrite !translate_other by exact Hz.
  - cbn [app] in *. simpl. now rewrite IH.
  - cbn [app] in *. rewrite !translate_cr_other by exact Hd. now rewrite IH.
Qed.

Lemma translate_keeps_spaces (l : text) :
  forallb Str.isspace l = true ->
  forallb Str.isspace (translate_newlines l) = true.
Proof.
  induction l as [|c r Hc IH| |r IH|d r Hd IH] using translate_newlines_ind;
    intros H.
  - reflexivity.
  - rewrite translate_other by exact Hc. simpl in *.
    apply andb_true_iff in H as [-> H]. auto.
  - reflexivity.
  - simpl in *. auto.
  - rewrite translate_cr_other by exact Hd.
    change (forallb Str.isspace (13 :: d :: r))
      with (true && forallb Str.isspace (d :: r)) in H.
    change (true && forallb Str.isspace (translate_newlines (d :: r)) = true).
    auto.
Qed.

Lemma not_space_not_lf (c : N) : Str.isspace c = false -> c <> 10.
Proof. intros H ->. discriminate H. Qed.

Lemma not_space_not_cr (c : N) : Str.isspace c = false -> c <> 13.
Proof. intros H ->. discriminate H. Qed.

Lemma translate_bare (m : text) : bare m -> bare (translate_newlines m).
Proof.
  intros [|a z m0 m' Ha Hz E]; [constructor|].
  rewrite translate_other by now apply not_space_not_cr.
  apply (bare_ends a z _ (translate_newlines m')); auto.
  rewrite <- translate_other by now apply not_space_not_cr.
  rewrite E. rewrite translate_app_no_lf.
  - now rewrite translate_other by now apply not_space_not_cr.
  - intros d y' [= <- _]. now apply not_space_not_lf.
Qed.

(** Trimming commutes with newline translation. *)
Lemma strip_translate (s : text) :
  Str.strip (translate_newlines s) = translate_newlines (Str.strip s).
Proof.
  destruct (strip_split s) as (l & r & E & Hl & Hr & Hb).
  rewrite E at 1.
  destruct Hb as [|a z m m' Ha Hz Em].
  - rewrite <- (app_nil_r (translate_newlines _)).
    change (translate_newlines []) with (@nil N).
    apply (strip_unique _ [] []); auto using bare_nil.
    apply translate_keeps_spaces. cbn [app].
    now rewrite forallb_app, Hl, Hr.
  - assert (Hb : bare (a :: m)) by (eapply bare_ends; eauto).
    rewrite translate_app_no_lf.
    2:{ intros d y' [= <- _]. now apply not_space_not_lf. }
    rewrite Em at 1. rewrite translate_app_no_cr by now apply not_space_not_cr.
    rewrite <- Em.
    apply strip_unique; auto using translate_keeps_spaces, translate_bare.
Qed.

(** ** The decoding loop skips what is not significant *)

Lemma a2b_step_skip (st : binascii.a2b_state) (c : N) :
  significant c = false -> binascii.a2b_step st c = binascii.Continue st.
Proof.
  unfold significant, binascii.a2b_step. intros H.
  apply orb_false_iff in H as [Hpad Hv]. rewrite Hpad. cbv zeta.
  apply N.ltb_ge in Hv. apply N.leb_le in Hv. now rewrite Hv.
Qed.

Lemma a2b_loop_filter (s : bytes) (st : binascii.a2b_state) :
  binascii.a2b_loop s st = binascii.a2b_loop (filter significant s) st.
Proof.
  revert st. induction s as [|c s IH]; intros st; simpl; [reflexivity|].
  destruct (significant c) eqn:Hc; simpl.
  - destruct (binascii.a2b_step st c); auto.
  - rewrite a2b_step_skip by exact Hc. apply IH.
Qed.

Lemma space_not_significant (c : N) :
  Str.isspace c = true -> significant c = false.
Proof.
  unfold Str.isspace. intros H.
  apply existsb_exists in H as (x & Hin & Hx).
  apply N.eqb_eq in Hx; subst x. simpl in Hin.
  repeat (destruct Hin as [<-|Hin]; [reflexivity|]). contradiction.
Qed.

Lemma filter_significant_spaces (l : text) :
  forallb Str.isspace l = true -> filter significant l = [].
Proof.
  induction l as [|c l IH]; simpl; intros H; [reflexivity|].
  apply andb_true_iff in H as [Hc Hl].
  rewrite (space_not_significant c Hc). auto.
Qed.

Lemma filter_significant_strip (s : text) :
  filter significant (Str.strip s) = filter significant s.
Proof.
  destruct (strip_split s) as (l & r & E & Hl & Hr & _).
  rewrite E at 2. rewrite !filter_app.
  rewrite (filter_significant_spaces l Hl), (filter_significant_spaces r Hr).
  now rewrite app_nil_r.
Qed.

Lemma filter_significant_translate (s : text) :
  filter significant (translate_newlines s) = filter significant s.
Proof.
  induction s as [|c r Hc IH| |r IH|d r Hd IH] using translate_newlines_ind.
  - reflexivity.
  - rewrite translate_other by exact Hc. simpl. now rewrite IH.
  - reflexivity.
  - change (filter significant (translate_newlines r) = filter significant r).
    exact IH.
  - rewrite translate_cr_other by exact Hd.
    change (filter significant (translate_newlines (d :: r))
            = filter significant (d :: r)).
    exact IH.
Qed.

Lemma isascii_translate (s : text) :
  Str.isascii (translate_newlines s) = Str.isascii s.
Proof.
  unfold Str.isascii.
  induction s as [|c r Hc IH| |r IH|d r Hd IH] using translate_newlines_ind.
  - reflexivity.
  - rewrite translate_other by exact Hc. simpl. now rewrite IH.
  - reflexivity.
  - change (forallb Str.is_ascii (translate_newlines r)
            = forallb Str.is_ascii r).
    exact IH.
  - rewrite translate_cr_other by exact Hd.
    change (forallb Str.is_ascii (translate_newlines (d :: r))
            = forallb Str.is_ascii (d :: r)).
    exact IH.
Qed.

Lemma forallb_filter_keeps {A} (p q : A -> bool) (l : list A) :
  forallb p l = true -> forallb p (filter q l) = true.
Proof.
  induction l as [|x l IH]; simpl; intros H; [reflexivity|].
  apply andb_true_iff in H as [Hx Hl].
  destruct (q x); simpl; [rewrite Hx|]; auto.
Qed.

Lemma b64decode_ascii (s : text) :
  Str.isascii s = true -> base64.b64decode s = binascii.a2b_base64 s.
Proof.
  intros H. unfold base64.b64decode, base64._bytes_from_decode_data.
  now rewrite H.
Qed.

Lemma b64decode_not_ascii (s : text) :
  Str.isascii s = false -> base64.b64decode s = inr ValueError.
Proof.
  intros H. unfold base64.b64decode, base64._bytes_from_decode_data.
  now rewrite H.
Qed.

Lemma b64decode_filter (s : text) :
  Str.isascii s = true ->
  base64.b64decode s = base64.b64decode (filter significant s).
Proof.
  intros H. rewrite !b64decode_ascii; auto.
  - unfold binascii.a2b_base64. apply a2b_loop_filter.
  - now apply forallb_filter_keeps.
Qed.

Lemma b64decode_translate (s : text) :
  base64.b64decode (translate_newlines s) = base64.b64decode s.
Proof.
  destruct (Str.isascii s) eqn:H.
  - rewrite (b64decode_filter s H).
    rewrite b64decode_filter by now rewrite isascii_translate.
    now rewrite filter_significant_translate.
  - rewrite !b64decode_not_ascii; auto. now rewrite isascii_translate.
Qed.

(** What the decoder is given decodes as the file's own text, trimmed. *)
Lemma b64decode_data_of (chars : text) :
  base64.b64decode (data_of chars) = base64.b64decode (Str.strip chars).
Proof. unfold data_of. now rewrite strip_translate, b64decode_translate. Qed.

(** ** The script, step by step *)

Lemma run_no_input (w : world) :
  input_file w = Missing \/ input_file w = Unreadable ->
  exists e, run w = (inr e, w).
Proof.
  intros [H|H]; unfold run, bind, read_input, raise; rewrite H; eauto.
Qed.

Lemma run_decode_error (w : world) (chars : text) (e : exn) :
  input_file w = Content chars ->
  base64.b64decode (data_of chars) = inr e ->
  run w = (inr e, mk_world (input_file w) (Some []) (stdout w)).
Proof.
  intros Hin Hdec. unfold run, bind, read_input, ret, open_output_wb, lift.
  rewrite Hin. fold (data_of chars). rewrite Hdec. simpl. now rewrite Hin.
Qed.

Lemma run_decoded (w : world) (chars : text) (decoded : bytes) :
  input_file w = Content chars ->
  base64.b64decode (data_of chars) = inl decoded ->
  run w = (inl tt, mk_world (input_file w) (Some decoded)
                     (stdout w ++ [confirmation])).
Proof.
  intros Hin Hdec.
  unfold run, bind, read_input, ret, open_output_wb, lift, write_output, print.
  rewrite Hin. fold (data_of chars). rewrite Hdec. simpl. now rewrite Hin.
Qed.

(** The three ways a run can go. *)
Lemma run_cases (w : world) :
  (exists e, (input_file w = Missing \/ input_file w = Unreadable) /\
     run w = (inr e, w)) \/
  (exists chars e, input_file w = Content chars /\
     base64.b64decode (data_of chars) = inr e /\
     run w = (inr e, mk_world (input_file w) (Some []) (stdout w))) \/
  (exists chars decoded, input_file w = Content chars /\
     base64.b64decode (data_of chars) = inl decoded /\
     run w = (inl tt, mk_world (input_file w) (Some decoded)
                        (stdout w ++ [confirmation]))).
Proof.
  destruct (input_file w) as [| |chars] eqn:Hin.
  - left. destruct (run_no_input w) as [e He]; eauto.
  - left. destruct (run_no_input w) as [e He]; eauto.
  - right. destruct (base64.b64decode (data_of chars)) as [decoded|e] eqn:Hdec.
    + right. exists chars, decoded. repeat split; auto.
      rewrite <- Hin. eapply run_decoded; eauto.
    + left. exists chars, e. repeat split; auto.
      rewrite <- Hin. eapply run_decode_error; eauto.
Qed.

(** ** Tables and bit arithmetic, by exhaustive evaluation *)

Lemma sextet_table (s : N) :
  s < 64 ->
  binascii.a2b (binascii.b2a s) = s /\
  is_data (binascii.b2a s) = true /\
  Str.is_ascii (binascii.b2a s) = true /\
  Str.isspace (binascii.b2a s) = false.
Proof.
  intros Hs.
  assert (all_below 64 (fun s =>
            (binascii.a2b (binascii.b2a s) =? s)
            && is_data (binascii.b2a s)
            && Str.is_ascii (binascii.b2a s)
            && negb (Str.isspace (binascii.b2a s))) = true) as H
    by (vm_compute; reflexivity).
  apply all_below_spec with (x := s) in H; [|exact Hs].
  rewrite !andb_true_iff in H. destruct H as [[[H1 H2] H3] H4].
  apply N.eqb_eq in H1. apply negb_true_iff in H4. auto.
Qed.

(** The first two sextets of a group give back its first byte and leave
    the high half of the second in [leftchar]. *)
Lemma first_byte (a b : N) :
  a < 256 -> b < 256 ->
  let s1 := N.shiftr a 2 in
  let s2 := N.lor (N.shiftl (N.land a 3) 4) (N.shiftr b 4) in
  s1 < 64 /\ s2 < 64 /\
  binascii.u8 (N.lor (N.shiftl s1 2) (N.shiftr s2 4)) = a /\
  N.land s2 15 = N.shiftr b 4.
Proof.
  intros Ha Hb.
  assert (all_below 256 (fun a => all_below 256 (fun b =>
            let s1 := N.shiftr a 2 in
            let s2 := N.lor (N.shiftl (N.land a 3) 4) (N.shiftr b 4) in
            (s1 <? 64) && (s2 <? 64)
            && (binascii.u8 (N.lor (N.shiftl s1 2) (N.shiftr s2 4)) =? a)
            && (N.land s2 15 =? N.shiftr b 4))) = true) as H
    by (vm_compute; reflexivity).
  apply all_below_spec with (x := a) in H; [|exact Ha].
  apply all_below_spec with (x := b) in H; [|exact Hb].
  cbv zeta in *. rewrite !andb_true_iff in H. destruct H as [[[H1 H2] H3] H4].
  apply N.ltb_lt in H1, H2. apply N.eqb_eq in H3, H4. auto.
Qed.

(** The third and fourth sextets give back the other two bytes. *)
Lemma last_bytes (b c : N) :
  b < 256 -> c < 256 ->
  let s3 := N.lor (N.shiftl (N.land b 15) 2) (N.shiftr c 6) in
  let s4 := N.land c 63 in
  s3 < 64 /\ s4 < 64 /\
  binascii.u8 (N.lor (N.shiftl (N.shiftr b 4) 4) (N.shiftr s3 2)) = b /\
  binascii.u8 (N.lor (N.shiftl (N.land s3 3) 6) s4) = c.
Proof.
  intros Hb Hc.
  assert (all_below 256 (fun b => all_below 256 (fun c =>
            let s3 := N.lor (N.shiftl (N.land b 15) 2) (N.shiftr c 6) in
            let s4 := N.land c 63 in
            (s3 <? 64) && (s4 <? 64)
            && (binascii.u8 (N.lor (N.shiftl (N.shiftr b 4) 4) (N.shiftr s3 2))
                =? b)
            && (binascii.u8 (N.lor (N.shiftl (N.land s3 3) 6) s4) =? c)))
          = true) as H
    by (vm_compute; reflexivity).
  apply all_below_spec with (x := b) in H; [|exact Hb].
  apply all_below_spec with (x := c) in H; [|exact Hc].
  cbv zeta in *. rewrite !andb_true_iff in H. destruct H as [[[H1 H2] H3] H4].
  apply N.ltb_lt in H1, H2. apply N.eqb_eq in H3, H4. auto.
Qed.

(** ** One step of the loop on a data character *)

Lemma is_data_inv (c : N) :
  is_data c = true ->
  (c =? binascii.BASE64_PAD) = false /\ (64 <=? binascii.a2b c) = false.
Proof.
  unfold is_data. intros H. apply andb_true_iff in H as [Hp Hv].
  apply negb_true_iff in Hp. apply N.ltb_lt in Hv.
  split; [exact Hp|]. apply N.leb_gt. exact Hv.
Qed.

Lemma a2b_step_data (st : binascii.a2b_state) (c : N) :
  is_data c = true ->
  binascii.a2b_step st c =
  let v := binascii.a2b c in
  if binascii.quad_pos st =? 0 then
    binascii.Continue (binascii.mk_a2b 1 v 0 (binascii.bin_data st))
  else if binascii.quad_pos st =? 1 then
    binascii.Continue
      (binascii.emit st 2 (N.land v 15)
         (N.lor (N.shiftl (binascii.leftchar st) 2) (N.shiftr v 4)))
  else if binascii.quad_pos st =? 2 then
    binascii.Continue
      (binascii.emit st 3 (N.land v 3)
         (N.lor (N.shiftl (binascii.leftchar st) 4) (N.shiftr v 2)))
  else
    binascii.Continue
      (binascii.emit st 0 0 (N.lor (N.shiftl (binascii.leftchar st) 6) v)).
Proof.
  intros H. destruct (is_data_inv c H) as [Hp Hv].
  unfold binascii.a2b_step. rewrite Hp. cbv zeta. now rewrite Hv.
Qed.

Lemma a2b_step_sextet (st : binascii.a2b_state) (s : N) :
  s < 64 ->
  binascii.a2b_step st (binascii.b2a s) =
  if binascii.quad_pos st =? 0 then
    binascii.Continue (binascii.mk_a2b 1 s 0 (binascii.bin_data st))
  else if binascii.quad_pos st =? 1 then
    binascii.Continue
      (binascii.emit st 2 (N.land s 15)
         (N.lor (N.shiftl (binascii.leftchar st) 2) (N.shiftr s 4)))
  else if binascii.quad_pos st =? 2 then
    binascii.Continue
      (binascii.emit st 3 (N.land s 3)
         (N.lor (N.shiftl (binascii.leftchar st) 4) (N.shiftr s 2)))
  else
    binascii.Continue
      (binascii.emit st 0 0 (N.lor (N.shiftl (binascii.leftchar st) 6) s)).
Proof.
  intros Hs. destruct (sextet_table s Hs) as (Hab & Hd & _).
  rewrite (a2b_step_data st _ Hd). cbv zeta. now rewrite Hab.
Qed.

Lemma a2b_step_q0 (s l p : N) (out : bytes) :
  s < 64 ->
  binascii.a2b_step (binascii.mk_a2b 0 l p out) (binascii.b2a s)
  = binascii.Continue (binascii.mk_a2b 1 s 0 out).
Proof. intros Hs. now rewrite a2b_step_sextet. Qed.

Lemma a2b_step_q1 (s l p : N) (out : bytes) :
  s < 64 ->
  binascii.a2b_step (binascii.mk_a2b 1 l p out) (binascii.b2a s)
  = binascii.Continue
      (binascii.mk_a2b 2 (N.land s 15) 0
         (out ++ [binascii.u8 (N.lor (N.shiftl l 2) (N.shiftr s 4))])).
Proof. intros Hs. now rewrite a2b_step_sextet. Qed.

Lemma a2b_step_q2 (s l p : N) (out : bytes) :
  s < 64 ->
  binascii.a2b_step (binascii.mk_a2b 2 l p out) (binascii.b2a s)
  = binascii.Continue
      (binascii.mk_a2b 3 (N.land s 3) 0
         (out ++ [binascii.u8 (N.lor (N.shiftl l 4) (N.shiftr s 2))])).
Proof. intros Hs. now rewrite a2b_step_sextet. Qed.

Lemma a2b_step_q3 (s l p : N) (out : bytes) :
  s < 64 ->
  binascii.a2b_step (binascii.mk_a2b 3 l p out) (binascii.b2a s)
  = binascii.Continue
      (binascii.mk_a2b 0 0 0
         (out ++ [binascii.u8 (N.lor (N.shiftl l 6) s)])).
Proof. intros Hs. now rewrite a2b_step_sextet. Qed.

Lemma a2b_loop_continue (c : N) (rest : bytes) (st st' : binascii.a2b_state) :
  binascii.a2b_step st c = binascii.Continue st' ->
  binascii.a2b_loop (c :: rest) st = binascii.a2b_loop rest st'.
Proof. intros H. simpl. now rewrite H. Qed.

Lemma a2b_loop_done (c : N) (rest : bytes) (st : binascii.a2b_state) :
  binascii.a2b_step st c = binascii.Done ->
  binascii.a2b_loop (c :: rest) st = inl (binascii.bin_data st).
Proof. intros H. simpl. now rewrite H. Qed.

(** ** Decoding what the encoder wrote *)

(** The first two characters of a group, from the start of a quad. *)
Lemma a2b_loop_two (a b : N) (out rest : bytes) (l p : N) :
  a < 256 -> b < 256 ->
  binascii.a2b_loop
    (binascii.b2a (N.shiftr a 2)
     :: binascii.b2a (N.lor (N.shiftl (N.land a 3) 4) (N.shiftr b 4))
     :: rest)
    (binascii.mk_a2b 0 l p out)
  = binascii.a2b_loop rest
      (binascii.mk_a2b 2 (N.shiftr b 4) 0 (out ++ [a])).
Proof.
  intros Ha Hb. destruct (first_byte a b Ha Hb) as (H1 & H2 & H3 & H4).
  cbv zeta in *.
  rewrite (a2b_loop_continue _ _ _ _ (a2b_step_q0 _ l p out H1)).
  rewrite (a2b_loop_continue _ _ _ _ (a2b_step_q1 _ _ 0 out H2)).
  now rewrite H3, H4.
Qed.

(** The last two characters of a full group. *)
Lemma a2b_loop_four (b c : N) (out rest : bytes) :
  b < 256 -> c < 256 ->
  binascii.a2b_loop
    (binascii.b2a (N.lor (N.shiftl (N.land b 15) 2) (N.shiftr c 6))
     :: binascii.b2a (N.land c 63)
     :: rest)
    (binascii.mk_a2b 2 (N.shiftr b 4) 0 out)
  = binascii.a2b_loop rest (binascii.mk_a2b 0 0 0 (out ++ [b; c])).
Proof.
  intros Hb Hc. destruct (last_bytes b c Hb Hc) as (H1 & H2 & H3 & H4).
  cbv zeta in *.
  rewrite (a2b_loop_continue _ _ _ _ (a2b_step_q2 _ _ 0 out H1)).
  rewrite (a2b_loop_continue _ _ _ _ (a2b_step_q3 _ _ 0 _ H2)).
  rewrite H3, H4. now rewrite <- app_assoc.
Qed.

(** Lists three elements at a time. *)
Lemma list_ind3 {A} (P : list A -> Prop) :
  P [] -> (forall a, P [a]) -> (forall a b, P [a; b]) ->
  (forall a b c r, P r -> P (a :: b :: c :: r)) ->
  forall l, P l.
Proof.
  intros H0 H1 H2 H3 l.
  enough (P l /\ (forall a, P (a :: l)) /\ forall a b, P (a :: b :: l))
    by tauto.
  induction l as [|x l (IH0 & IH1 & IH2)]; auto.
Qed.

Lemma a2b_loop_b64encode (B out : bytes) :
  Forall is_byte B ->
  binascii.a2b_loop (base64.b64encode B) (binascii.mk_a2b 0 0 0 out)
  = inl (out ++ B).
Proof.
  revert out. induction B as [|a|a b|a b c r IH] using list_ind3;
    intros out HB.
  - simpl. now rewrite app_nil_r.
  - inversion_clear HB as [|? ? Ha _].
    assert (H0 : 0 < 256) by lia.
    cbn [base64.b64encode].
    replace (N.shiftl (N.land a 3) 4)
      with (N.lor (N.shiftl (N.land a 3) 4) (N.shiftr 0 4))
      by (now rewrite N.lor_0_r).
    rewrite (a2b_loop_two a 0 out _ 0 0 Ha H0).
    reflexivity.
  - inversion_clear HB as [|? ? Ha HB']. inversion_clear HB' as [|? ? Hb _].
    assert (H0 : 0 < 256) by lia.
    cbn [base64.b64encode].
    rewrite (a2b_loop_two a b out _ 0 0 Ha Hb).
    destruct (last_bytes b 0 Hb H0) as (H1 & _ & H3 & _). cbv zeta in *.
    rewrite N.lor_0_r in H1, H3.
    rewrite (a2b_loop_continue _ _ _ _ (a2b_step_q2 _ _ 0 _ H1)).
    rewrite H3. rewrite <- app_assoc. reflexivity.
  - inversion_clear HB as [|? ? Ha HB']. inversion_clear HB' as [|? ? Hb HB].
    inversion_clear HB as [|? ? Hc Hr].
    cbn [base64.b64encode].
    rewrite (a2b_loop_two a b out _ 0 0 Ha Hb).
    rewrite (a2b_loop_four b c _ _ Hb Hc).
    rewrite IH by exact Hr. now rewrite <- !app_assoc.
Qed.

(** ** What the encoder writes: ASCII, and no space anywhere *)

Lemma plain_sextet (s : N) : s < 64 -> plain (binascii.b2a s) = true.
Proof.
  intros Hs. destruct (sextet_table s Hs) as (_ & _ & Ha & Hsp).
  unfold plain. now rewrite Ha, Hsp.
Qed.

Lemma b64encode_plain (B : bytes) :
  Forall is_byte B -> forallb plain (base64.b64encode B) = true.
Proof.
  induction B as [|a|a b|a b c r IH] using list_ind3; intros HB.
  - reflexivity.
  - inversion_clear HB as [|? ? Ha _].
    assert (H0 : 0 < 256) by lia.
    destruct (first_byte a 0 Ha H0) as (H1 & H2 & _). cbv zeta in *.
    rewrite N.lor_0_r in H2.
    cbn [base64.b64encode forallb].
    now rewrite !plain_sextet by assumption.
  - inversion_clear HB as [|? ? Ha HB']. inversion_clear HB' as [|? ? Hb _].
    assert (H0 : 0 < 256) by lia.
    destruct (first_byte a b Ha Hb) as (H1 & H2 & _).
    destruct (last_bytes b 0 Hb H0) as (H3 & _). cbv zeta in *.
    rewrite N.lor_0_r in H3.
    cbn [base64.b64encode forallb].
    now rewrite !plain_sextet by assumption.
  - inversion_clear HB as [|? ? Ha HB']. inversion_clear HB' as [|? ? Hb HB].
    inversion_clear HB as [|? ? Hc Hr].
    destruct (first_byte a b Ha Hb) as (H1 & H2 & _).
    destruct (last_bytes b c Hb Hc) as (H3 & H4 & _). cbv zeta in *.
    cbn [base64.b64encode forallb].
    rewrite !plain_sextet by assumption. now rewrite IH.
Qed.

Lemma plain_isascii (s : text) : forallb plain s = true -> Str.isascii s = true.
Proof.
  unfold Str.isascii. induction s as [|c s IH]; simpl; intros H; auto.
  apply andb_true_iff in H as [Hc Hs]. apply andb_true_iff in Hc as [-> _].
  auto.
Qed.

Lemma plain_translate (s : text) :
  forallb plain s = true -> translate_newlines s = s.
Proof.
  induction s as [|c s IH]; intros H; [reflexivity|].
  cbn [forallb] in H. apply andb_true_iff in H as [Hc Hs].
  apply andb_true_iff in Hc as [_ Hc]. apply negb_true_iff in Hc.
  rewrite translate_other by now apply not_space_not_cr.
  now rewrite IH.
Qed.

Lemma plain_bare (s : text) : forallb plain s = true -> bare s.
Proof.
  intros H. destruct s as [|a m]; [constructor|].
  destruct (exists_last (l := a :: m)) as (m' & z & E); [discriminate|].
  assert (Hin : forall x, In x (a :: m) -> Str.isspace x = false).
  { intros x Hx. rewrite forallb_forall in H. apply H in Hx.
    apply andb_true_iff in Hx as [_ Hx]. now apply negb_true_iff. }
  apply (bare_ends a z m m'); auto.
  - apply Hin. now left.
  - apply Hin. rewrite E. apply in_or_app. right. now left.
Qed.

Lemma data_of_plain (s : text) :
  forallb plain s = true -> data_of (Str.strip s) = s.
Proof.
  intros H. unfold data_of.
  rewrite (strip_bare s) by now apply plain_bare.
  rewrite plain_translate by exact H.
  now apply strip_bare, plain_bare.
Qed.

(** Decoding undoes encoding. *)
Lemma b64decode_b64encode (B : bytes) :
  Forall is_byte B -> base64.b64decode (base64.b64encode B) = inl B.
Proof.
  intros HB. rewrite b64decode_ascii.
  - unfold binascii.a2b_base64, binascii.a2b_init.
    now rewrite a2b_loop_b64encode.
  - now apply plain_isascii, b64encode_plain.
Qed.

(** ** Data characters, then padding *)

(** A run of data characters moves [quad_pos] round the quad and leaves no
    pad counted. *)
Lemma a2b_loop_data (D rest : bytes) (st : binascii.a2b_state) :
  forallb is_data D = true ->
  binascii.quad_pos st < 4 -> binascii.pads st = 0 ->
  exists st',
    binascii.a2b_loop (D ++ rest) st = binascii.a2b_loop rest st' /\
    binascii.quad_pos st' = (binascii.quad_pos st + N.of_nat (List.length D)) mod 4 /\
    binascii.pads st' = 0.
Proof.
  revert st. induction D as [|c D IH]; intros st HD Hq Hp.
  - exists st. repeat split; auto. cbn [List.length N.of_nat].
    rewrite N.add_0_r. symmetry. now apply N.mod_small.
  - cbn [forallb] in HD. apply andb_true_iff in HD as [Hc HD].
    assert (exists st1, binascii.a2b_step st c = binascii.Continue st1 /\
              binascii.quad_pos st1 = (binascii.quad_pos st + 1) mod 4 /\
              binascii.pads st1 = 0) as (st1 & Hstep & Hq1 & Hp1).
    { rewrite (a2b_step_data st c Hc). cbv zeta.
      destruct st as [q l pd out]. cbn [binascii.quad_pos] in *.
      assert (q = 0 \/ q = 1 \/ q = 2 \/ q = 3) as [-> | [-> | [-> | ->]]] by lia;
        cbn; eexists; repeat split. }
    destruct (IH st1 HD) as (st' & Hloop & Hq' & Hp'); auto.
    { rewrite Hq1. apply N.mod_lt. discriminate. }
    exists st'. repeat split; auto.
    + cbn [app]. rewrite (a2b_loop_continue _ _ _ _ Hstep). exact Hloop.
    + rewrite Hq', Hq1. cbn [List.length]. rewrite Nat2N.inj_succ.
      rewrite N.Div0.add_mod_idemp_l. f_equal. lia.
Qed.

(** Before the second character of a quad a pad is passed over. *)
Lemma a2b_loop_pads_early (p : nat) (st : binascii.a2b_state) :
  binascii.quad_pos st < 2 ->
  binascii.a2b_loop (repeat binascii.BASE64_PAD p) st = binascii.a2b_finish st.
Proof.
  intros Hq. induction p as [|p IH]; [reflexivity|].
  cbn [repeat]. rewrite (a2b_loop_continue _ _ st st); [exact IH|].
  unfold binascii.a2b_step. rewrite N.eqb_refl.
  apply N.leb_gt in Hq. now rewrite Hq.
Qed.

Lemma a2b_loop_pads (p : nat) (st : binascii.a2b_state) :
  binascii.quad_pos st < 4 -> binascii.pads st = 0 ->
  failed (binascii.a2b_loop (repeat binascii.BASE64_PAD p) st) <->
  (binascii.quad_pos st = 1 \/ (binascii.quad_pos st = 2 /\ (p < 2)%nat) \/
   (binascii.quad_pos st = 3 /\ p = 0%nat)).
Proof.
  intros Hq Hp. destruct st as [q l pd out]. cbn [binascii.quad_pos binascii.pads] in *.
  subst pd.
  assert (q = 0 \/ q = 1 \/ q = 2 \/ q = 3) as [-> | [-> | [-> | ->]]] by lia.
  - rewrite a2b_loop_pads_early by (cbn; lia). cbn. split.
    + intros [e He]. discriminate He.
    + intros [H|[[H _]|[H _]]]; discriminate H.
  - rewrite a2b_loop_pads_early by (cbn; lia). cbn. split; auto.
    intros _. eexists; reflexivity.
  - destruct p as [|[|p]]; cbn; split.
    + intros _. right; left. split; [reflexivity|lia].
    + intros _. eexists; reflexivity.
    + intros _. right; left. split; [reflexivity|lia].
    + intros _. eexists; reflexivity.
    + intros [e He]. discriminate He.
    + intros [H|[[_ H]|[H _]]]; [discriminate H|lia|discriminate H].
  - destruct p as [|p]; cbn; split.
    + intros _. right; right. split; reflexivity.
    + intros _. eexists; reflexivity.
    + intros [e He]. discriminate He.
    + intros [H|[[H _]|[_ H]]]; discriminate H.
Qed.

(** Decoding a text of the shape data characters, then pad characters. *)
Lemma a2b_base64_shape (D : bytes) (p : nat) :
  forallb is_data D = true ->
  failed (binascii.a2b_base64 (D ++ repeat binascii.BASE64_PAD p)) <->
  padding_invalid (N.of_nat (List.length D)) p.
Proof.
  intros HD. unfold binascii.a2b_base64.
  destruct (a2b_loop_data D (repeat binascii.BASE64_PAD p) binascii.a2b_init HD)
    as (st' & Hloop & Hq & Hp); [reflexivity|reflexivity|].
  cbn [binascii.a2b_init binascii.quad_pos] in Hq. rewrite N.add_0_l in Hq.
  rewrite Hloop, a2b_loop_pads; auto.
  - rewrite Hq. reflexivity.
  - rewrite Hq. apply N.mod_lt. discriminate.
Qed.

Lemma outcome_content (w : world) (chars : text) :
  input_file w = Content chars ->
  outcome w = match base64.b64decode (data_of chars) with
              | inl _ => inl tt
              | inr e => inr e
              end.
Proof.
  intros Hin. unfold outcome.
  destruct (base64.b64decode (data_of chars)) as [decoded|e] eqn:Hdec.
  - now rewrite (run_decoded w chars decoded Hin Hdec).
  - now rewrite (run_decode_error w chars e Hin Hdec).
Qed.

Lemma a2b_loop_error_kind (s : bytes) (st : binascii.a2b_state) (e : exn) :
  binascii.a2b_loop s st = inr e -> exists pe, e = binascii_Error pe.
Proof.
  revert st. induction s as [|c s IH]; intros st; simpl.
  - unfold binascii.a2b_finish.
    destruct (binascii.quad_pos st =? 0); [discriminate|].
    destruct (binascii.quad_pos st =? 1); intros [= <-]; eauto.
  - destruct (binascii.a2b_step st c); [discriminate|apply IH].
Qed.

Lemma data_of_trailing_newline (chars : text) :
  data_of (chars ++ [10]) = data_of chars.
Proof.
  unfold data_of. rewrite !strip_translate.
  now rewrite strip_trailing_space by reflexivity.
Qed.

(** The outcome and the output file depend on the input file through
    [data_of] only. *)
Lemma run_depends_on_data (chars chars' : text) (out : option bytes)
    (so : list string) :
  data_of chars' = data_of chars ->
  outcome (mk_world (Content chars') out so)
  = outcome (mk_world (Content chars) out so) /\
  output_file (after (mk_world (Content chars') out so))
  = output_file (after (mk_world (Content chars) out so)) /\
  stdout (after (mk_world (Content chars') out so))
  = stdout (after (mk_world (Content chars) out so)).
Proof.
  intros E. unfold outcome, after.
  destruct (base64.b64decode (data_of chars)) as [decoded|e] eqn:Hdec.
  - rewrite (run_decoded (mk_world (Content chars) out so) chars decoded
               eq_refl Hdec).
    rewrite <- E in Hdec.
    rewrite (run_decoded (mk_world (Content chars') out so) chars' decoded
               eq_refl Hdec).
    auto.
  - rewrite (run_decode_error (mk_world (Content chars) out so) chars e
               eq_refl Hdec).
    rewrite <- E in Hdec.
    rewrite (run_decode_error (mk_world (Content chars') out so) chars' e
               eq_refl Hdec).
    auto.
Qed.

(** * The claims *)

(** C1. For every run that succeeds, the bytes of the output file are
    exactly the base64 decoding of the input file's text with its leading
    and trailing whitespace trimmed, and nothing else is done to them. *)
Theorem output_is_decoding_of_trimmed_input (w : world) :
  outcome w = inl tt ->
  exists chars decoded,
    input_file w = Content chars /\
    base64.b64decode (Str.strip chars) = inl decoded /\
    output_file (after w) = Some decoded.
Proof.
  intros Hok. unfold outcome, after in *.
  destruct (run_cases w) as [(e & _ & Hrun)|[(chars & e & _ & _ & Hrun)|
                             (chars & decoded & Hin & Hdec & Hrun)]];
    rewrite Hrun in *; try discriminate Hok.
  exists chars, decoded. rewrite <- b64decode_data_of. auto.
Qed.

Lemma output_is_decoding_of_trimmed_input_witness :
  outcome (mk_world (Content hello_b64) None []) = inl tt /\
  exists chars decoded,
    input_file (mk_world (Content hello_b64) None []) = Content chars /\
    base64.b64decode (Str.strip chars) = inl decoded /\
    output_file (after (mk_world (Content hello_b64) None [])) = Some decoded.
Proof.
  split; [reflexivity|].
  apply (output_is_decoding_of_trimmed_input
           (mk_world (Content hello_b64) None [])).
  reflexivity.
Defined.

(** C2, as stated, fails: the text "aGVsbG8=!" contains a character
    outside the alphabet, and the run succeeds and writes "hello". *)
Lemma appended_bang_is_accepted :
  existsb (fun c => negb (significant c))
    (data_of (hello_b64 ++ text_of_string "!")) = true /\
  run (mk_world (Content (hello_b64 ++ text_of_string "!")) None [])
  = (inl tt, mk_world (Content (hello_b64 ++ text_of_string "!"))
               (Some hello) [confirmation]).
Proof. split; reflexivity. Qed.

(** C2, amended. The run fails when the trimmed text contains a character
    that is not ASCII; and on ASCII text the loop looks at the significant
    characters only, and for [n] data characters followed by [p] pad
    characters the run fails exactly when the padding is too short:
    [n mod 4 = 1], or [n mod 4 = 2] with [p < 2], or [n mod 4 = 3] with
    [p = 0]. *)
Theorem run_fails_on_non_ascii_or_short_padding (w : world) (chars : text) :
  input_file w = Content chars ->
  (Str.isascii (data_of chars) = false -> outcome w = inr ValueError) /\
  (forall (D : text) (p : nat),
      Str.isascii (data_of chars) = true ->
      filter significant (data_of chars)
      = D ++ repeat binascii.BASE64_PAD p ->
      forallb is_data D = true ->
      (failed (outcome w) <-> padding_invalid (N.of_nat (List.length D)) p)).
Proof.
  intros Hin. rewrite (outcome_content w chars Hin). split.
  - intros Hna. now rewrite (b64decode_not_ascii _ Hna).
  - intros D p Ha Hshape HD.
    rewrite <- (a2b_base64_shape D p HD), <- Hshape.
    rewrite (b64decode_filter _ Ha).
    rewrite b64decode_ascii by now apply forallb_filter_keeps.
    destruct (binascii.a2b_base64 (filter significant (data_of chars)));
      split; intros [e' He]; try discriminate He; eexists; reflexivity.
Qed.

Lemma run_fails_on_non_ascii_or_short_padding_witness :
  input_file (mk_world (Content (text_of_string "aGVsbG8")) None [])
  = Content (text_of_string "aGVsbG8") /\
  failed (outcome (mk_world (Content (text_of_string "aGVsbG8")) None [])).
Proof.
  split; [reflexivity|].
  destruct (run_fails_on_non_ascii_or_short_padding
              (mk_world (Content (text_of_string "aGVsbG8")) None [])
              (text_of_string "aGVsbG8") eq_refl) as [_ H].
  apply (H (text_of_string "aGVsbG8") 0%nat); try reflexivity.
  right; right. split; reflexivity.
Defined.

(** C3, as stated, fails: with the text "aGVsbG8" the decode step raises
    an error, and an output file that held four bytes is left empty, while
    an absent one is created. *)
Lemma failed_decode_empties_output :
  base64.b64decode (data_of (text_of_string "aGVsbG8"))
  = inr (binascii_Error Incorrect_padding) /\
  output_file (after (mk_world (Content (text_of_string "aGVsbG8"))
                        (Some zip_magic) []))
  = Some [] /\
  output_file (after (mk_world (Content (text_of_string "aGVsbG8")) None []))
  = Some [].
Proof. repeat split; reflexivity. Qed.

(** C3, amended. When the decode step fails, the run fails with its error
    and the output file is left existing and empty, whatever it was before:
    an absent file is created with no bytes, and an existing one keeps its
    contents only when it was empty already. *)
Theorem failed_decode_keeps_only_empty_output (w : world) (chars : text)
    (e : exn) :
  input_file w = Content chars ->
  base64.b64decode (data_of chars) = inr e ->
  outcome w = inr e /\
  output_file (after w) = Some [] /\
  (output_file w = None -> output_file (after w) = Some []) /\
  (output_file (after w) = output_file w <-> output_file w = Some []).
Proof.
  intros Hin Hdec. unfold outcome, after.
  rewrite (run_decode_error w chars e Hin Hdec). cbn [fst snd output_file].
  repeat split; auto.
Qed.

Lemma failed_decode_keeps_only_empty_output_witness :
  input_file (mk_world (Content (text_of_string "a")) (Some zip_magic) [])
  = Content (text_of_string "a") /\
  base64.b64decode (data_of (text_of_string "a"))
  = inr (binascii_Error (Invalid_length 1)) /\
  outcome (mk_world (Content (text_of_string "a")) (Some zip_magic) [])
  = inr (binascii_Error (Invalid_length 1)) /\
  output_file
    (after (mk_world (Content (text_of_string "a")) (Some zip_magic) []))
  = Some [] /\
  output_file
    (after (mk_world (Content (text_of_string "a")) (Some zip_magic) []))
  <> output_file (mk_world (Content (text_of_string "a")) (Some zip_magic) []).
Proof.
  split; [reflexivity|]. split; [reflexivity|].
  destruct (failed_decode_keeps_only_empty_output
              (mk_world (Content (text_of_string "a")) (Some zip_magic) [])
              (text_of_string "a") (binascii_Error (Invalid_length 1))
              eq_refl eq_refl) as (Hout & Hempty & _ & Hkeep).
  split; [exact Hout|]. split; [exact Hempty|].
  intros Hsame. apply Hkeep in Hsame. discriminate Hsame.
Defined.

(** C4. Round trip: for every byte sequence [B], with the trimmed standard
    encoding of [B] as the contents of the input file, the run succeeds
    and the output file holds exactly [B]. *)
Theorem round_trip (B : bytes) (out : option bytes) (so : list string) :
  Forall is_byte B ->
  outcome (mk_world (Content (Str.strip (base64.b64encode B))) out so)
  = inl tt /\
  output_file
    (after (mk_world (Content (Str.strip (base64.b64encode B))) out so))
  = Some B.
Proof.
  intros HB. unfold outcome, after.
  rewrite (run_decoded
             (mk_world (Content (Str.strip (base64.b64encode B))) out so)
             (Str.strip (base64.b64encode B)) B eq_refl).
  - auto.
  - rewrite data_of_plain by now apply b64encode_plain.
    now apply b64decode_b64encode.
Qed.

Lemma round_trip_witness :
  Forall is_byte zip_magic /\
  outcome (mk_world (Content (Str.strip (base64.b64encode zip_magic)))
             (Some hello) [])
  = inl tt /\
  output_file
    (after (mk_world (Content (Str.strip (base64.b64encode zip_magic)))
              (Some hello) []))
  = Some zip_magic.
Proof.
  assert (H : Forall is_byte zip_magic) by (repeat constructor).
  split; [exact H|].
  exact (round_trip zip_magic (Some hello) [] H).
Defined.

(** C5. Whitespace tolerance: a newline after the input text changes
    neither the outcome of the run, nor the output file, nor what is
    printed; and "aGVsbG8=" followed by a newline gives "hello", as
    "aGVsbG8=" does. *)
Theorem trailing_newline_tolerated :
  (forall (chars : text) (out : option bytes) (so : list string),
      outcome (mk_world (Content (chars ++ [10])) out so)
      = outcome (mk_world (Content chars) out so) /\
      output_file (after (mk_world (Content (chars ++ [10])) out so))
      = output_file (after (mk_world (Content chars) out so)) /\
      stdout (after (mk_world (Content (chars ++ [10])) out so))
      = stdout (after (mk_world (Content chars) out so))) /\
  (forall (out : option bytes) (so : list string),
      output_file (after (mk_world (Content (hello_b64 ++ [10])) out so))
      = Some hello /\
      output_file (after (mk_world (Content hello_b64) out so))
      = Some hello).
Proof.
  split.
  - intros chars out so.
    apply run_depends_on_data, data_of_trailing_newline.
  - intros out so. split; reflexivity.
Qed.

(** C6. With "aGVsbG8=" in the input file the run succeeds, the output
    file holds the five bytes of "hello", and one line is added to
    standard output: the confirmation, which ends with the name of the
    output file. *)
Theorem hello_scenario (out : option bytes) (so : list string) :
  run (mk_world (Content hello_b64) out so)
  = (inl tt, mk_world (Content hello_b64) (Some hello) (so ++ [confirmation]))
  /\ hello = [104; 101; 108; 108; 111]
  /\ List.length hello = 5%nat
  /\ confirmation
     = String.append "ZIP file created successfully: " output_path.
Proof. repeat split; reflexivity. Qed.

(** C7. When the input file is missing or unreadable the run fails and
    the world is as it was: the output path, absent or holding earlier
    bytes, is untouched, and nothing is printed. *)
Theorem no_input_leaves_world_untouched (w : world) :
  input_file w = Missing \/ input_file w = Unreadable ->
  failed (outcome w) /\ after w = w.
Proof.
  intros H. destruct (run_no_input w H) as [e He].
  unfold outcome, after. rewrite He. split; [exists e|]; reflexivity.
Qed.

Lemma no_input_leaves_world_untouched_witness :
  (input_file (mk_world Missing (Some zip_magic) []) = Missing \/
   input_file (mk_world Missing (Some zip_magic) []) = Unreadable) /\
  failed (outcome (mk_world Missing (Some zip_magic) [])) /\
  after (mk_world Missing (Some zip_magic) [])
  = mk_world Missing (Some zip_magic) [].
Proof.
  assert (H : input_file (mk_world Missing (Some zip_magic) []) = Missing \/
              input_file (mk_world Missing (Some zip_magic) []) = Unreadable)
    by (left; reflexivity).
  split; [exact H|].
  exact (no_input_leaves_world_untouched _ H).
Defined.

(** C8. Idempotence: a second run on the unchanged input ends as the
    first did and leaves the output file with the same bytes; the input
    file is not changed by a run, and a successful second run leaves the
    decoded bytes once, not twice. *)
Theorem second_run_same_output (w : world) :
  input_file (after w) = input_file w /\
  outcome (after w) = outcome w /\
  output_file (after (after w)) = output_file (after w) /\
  (forall decoded, outcome w = inl tt ->
     output_file (after w) = Some decoded ->
     output_file (after (after w)) = Some decoded).
Proof.
  unfold outcome, after.
  destruct (run_cases w) as [(e & Hno & Hrun)|[(chars & e & Hc & Hdec & Hrun)|
                             (chars & decoded & Hc & Hdec & Hrun)]].
  - rewrite !Hrun; cbn [fst snd]. rewrite !Hrun; cbn [fst snd].
    repeat split; auto.
  - rewrite !Hrun; cbn [fst snd].
    rewrite (run_decode_error
               (mk_world (input_file w) (Some []) (stdout w)) chars e Hc Hdec).
    repeat split; auto.
  - rewrite !Hrun; cbn [fst snd].
    rewrite (run_decoded
               (mk_world (input_file w) (Some decoded)
                  (stdout w ++ [confirmation])) chars decoded Hc Hdec).
    repeat split; auto.
Qed.

(** C9, as stated, fails: with a character that is not ASCII after
    "aGVsbG8=", the rest has valid padding and decodes to "hello", but the
    decode step raises [ValueError], which is no padding error. *)
Lemma non_ascii_is_not_discarded :
  significant 233 = false /\
  base64.b64decode (filter significant (hello_b64 ++ [233])) = inl hello /\
  base64.b64decode (hello_b64 ++ [233]) = inr ValueError.
Proof. repeat split; reflexivity. Qed.

(** C9, amended. On a text of ASCII characters the decode step discards
    the characters that are neither in the alphabet nor the pad character:
    its result, bytes or error, is that of decoding the text with them
    removed; and an error it raises is a [binascii] error, about padding or
    length, never about a character. *)
Theorem ascii_non_alphabet_is_discarded (s : text) :
  Str.isascii s = true ->
  base64.b64decode s = base64.b64decode (filter significant s) /\
  (forall e, base64.b64decode s = inr e -> exists pe, e = binascii_Error pe).
Proof.
  intros Ha. split; [now apply b64decode_filter|].
  intros e. rewrite (b64decode_ascii s Ha). apply a2b_loop_error_kind.
Qed.

Lemma ascii_non_alphabet_is_discarded_witness :
  Str.isascii (text_of_string "aG Vs!bG8=?") = true /\
  base64.b64decode (text_of_string "aG Vs!bG8=?") = inl hello.
Proof.
  split; [reflexivity|].
  destruct (ascii_non_alphabet_is_discarded
              (text_of_string "aG Vs!bG8=?") eq_refl) as [H _].
  rewrite H. reflexivity.
Defined.

(** C10. The output file is opened, and so truncated, before the decode
    step: when decoding raises an error the run ends with that error in
    the world that opening the output file left, where the output file
    exists and holds no bytes, whatever it was before. *)
Theorem failed_decode_truncates_output (w : world) (chars : text) (e : exn) :
  input_file w = Content chars ->
  base64.b64decode (data_of chars) = inr e ->
  run w = (inr e, snd (open_output_wb w)) /\
  output_file (after w) = Some [] /\
  stdout (after w) = stdout w.
Proof.
  intros Hin Hdec. unfold after.
  rewrite (run_decode_error w chars e Hin Hdec). repeat split.
Qed.

Lemma failed_decode_truncates_output_witness :
  input_file (mk_world (Content (text_of_string "aGVsbG8")) (Some zip_magic) [])
  = Content (text_of_string "aGVsbG8") /\
  base64.b64decode (data_of (text_of_string "aGVsbG8"))
  = inr (binascii_Error Incorrect_padding) /\
  output_file
    (after (mk_world (Content (text_of_string "aGVsbG8")) (Some zip_magic) []))
  = Some [] /\
  output_file
    (after (mk_world (Content (text_of_string "aGVsbG8")) None []))
  = Some [].
Proof.
  split; [reflexivity|]. split; [reflexivity|]. split.
  - apply (failed_decode_truncates_output
             (mk_world (Content (text_of_string "aGVsbG8")) (Some zip_magic) [])
             (text_of_string "aGVsbG8") (binascii_Error Incorrect_padding)
             eq_refl eq_refl).
  - apply (failed_decode_truncates_output
             (mk_world (Content (text_of_string "aGVsbG8")) None [])
             (text_of_string "aGVsbG8") (binascii_Error Incorrect_padding)
             eq_refl eq_refl).
Defined.

(** * Further properties of the script *)

(** ** Helper lemmas *)

Lemma isascii_strip (s : text) :
  Str.isascii s = true -> Str.isascii (Str.strip s) = true.
Proof.
  destruct (strip_split s) as (l & r & E & _). unfold Str.isascii.
  rewrite E at 1. rewrite !forallb_app, !andb_true_iff. tauto.
Qed.

Lemma data_of_spaces (chars : text) :
  forallb Str.isspace chars = true -> data_of chars = [].
Proof.
  intros H. unfold data_of.
  rewrite <- (app_nil_r (translate_newlines chars)).
  apply (strip_unique _ [] []); auto using bare_nil, translate_keeps_spaces.
Qed.

Lemma data_of_plain_text (s : text) :
  forallb plain s = true -> data_of s = s.
Proof.
  intros H. unfold data_of. rewrite plain_translate by exact H.
  now apply strip_bare, plain_bare.
Qed.

Lemma b64decode_ok_ascii (s : text) (r : bytes) :
  base64.b64decode s = inl r -> Str.isascii s = true.
Proof.
  intros H. destruct (Str.isascii s) eqn:Ha; [reflexivity|].
  rewrite (b64decode_not_ascii s Ha) in H. discriminate H.
Qed.

Lemma length_mod3_step (n : nat) : (S (S (S n)) mod 3 = n mod 3)%nat.
Proof.
  replace (S (S (S n))) with (n + 1 * 3)%nat by lia.
  apply Nat.Div0.mod_add.
Qed.

(** A padded encoding ends the loop: what follows it is not read. *)
Lemma a2b_loop_b64encode_padded (B out tail : bytes) :
  Forall is_byte B -> (List.length B mod 3 <> 0)%nat ->
  binascii.a2b_loop (base64.b64encode B ++ tail) (binascii.mk_a2b 0 0 0 out)
  = inl (out ++ B).
Proof.
  revert out. induction B as [|a|a b|a b c r IH] using list_ind3;
    intros out HB Hlen.
  - now contradiction Hlen.
  - inversion_clear HB as [|? ? Ha _].
    assert (H0 : 0 < 256) by lia.
    cbn [base64.b64encode app].
    replace (N.shiftl (N.land a 3) 4)
      with (N.lor (N.shiftl (N.land a 3) 4) (N.shiftr 0 4))
      by (now rewrite N.lor_0_r).
    rewrite (a2b_loop_two a 0 out _ 0 0 Ha H0).
    reflexivity.
  - inversion_clear HB as [|? ? Ha HB']. inversion_clear HB' as [|? ? Hb _].
    assert (H0 : 0 < 256) by lia.
    cbn [base64.b64encode app].
    rewrite (a2b_loop_two a b out _ 0 0 Ha Hb).
    destruct (last_bytes b 0 Hb H0) as (H1 & _ & H3 & _). cbv zeta in *.
    rewrite N.lor_0_r in H1, H3.
    rewrite (a2b_loop_continue _ _ _ _ (a2b_step_q2 _ _ 0 _ H1)).
    rewrite H3. rewrite <- app_assoc. reflexivity.
  - inversion_clear HB as [|? ? Ha HB']. inversion_clear HB' as [|? ? Hb HB].
    inversion_clear HB as [|? ? Hc Hr].
    cbn [List.length] in Hlen. rewrite length_mod3_step in Hlen.
    cbn [base64.b64encode app].
    rewrite (a2b_loop_two a b out _ 0 0 Ha Hb).
    rewrite (a2b_loop_four b c _ _ Hb Hc).
    rewrite IH by assumption. now rewrite <- !app_assoc.
Qed.

(** An encoding without padding leaves the loop at the start of a quad. *)
Lemma a2b_loop_b64encode_full (B out s : bytes) :
  Forall is_byte B -> (List.length B mod 3 = 0)%nat ->
  binascii.a2b_loop (base64.b64encode B ++ s) (binascii.mk_a2b 0 0 0 out)
  = binascii.a2b_loop s (binascii.mk_a2b 0 0 0 (out ++ B)).
Proof.
  revert out. induction B as [|a|a b|a b c r IH] using list_ind3;
    intros out HB Hlen.
  - cbn [base64.b64encode app]. now rewrite app_nil_r.
  - discriminate Hlen.
  - discriminate Hlen.
  - inversion_clear HB as [|? ? Ha HB']. inversion_clear HB' as [|? ? Hb HB].
    inversion_clear HB as [|? ? Hc Hr].
    cbn [List.length] in Hlen. rewrite length_mod3_step in Hlen.
    cbn [base64.b64encode app].
    rewrite (a2b_loop_two a b out _ 0 0 Ha Hb).
    rewrite (a2b_loop_four b c _ _ Hb Hc).
    rewrite IH by assumption. now rewrite <- !app_assoc.
Qed.

Lemma a2b_step_with_prefix (pre : bytes) (st : binascii.a2b_state) (c : N) :
  binascii.a2b_step (with_prefix pre st) c
  = match binascii.a2b_step st c with
    | binascii.Done => binascii.Done
    | binascii.Continue st' => binascii.Continue (with_prefix pre st')
    end.
Proof.
  destruct st as [q l p out].
  unfold binascii.a2b_step, with_prefix, binascii.emit.
  cbn [binascii.quad_pos binascii.leftchar binascii.pads binascii.bin_data].
  repeat match goal with
         | |- context [if ?b then _ else _] => destruct b
         end; cbv zeta;
    cbn [binascii.quad_pos binascii.leftchar binascii.pads binascii.bin_data];
    rewrite ?app_assoc; reflexivity.
Qed.

(** Output already written stays in front of what a successful decoding
    adds. *)
Lemma a2b_loop_with_prefix (pre s : bytes) (st : binascii.a2b_state)
    (r : bytes) :
  binascii.a2b_loop s st = inl r ->
  binascii.a2b_loop s (with_prefix pre st) = inl (pre ++ r).
Proof.
  revert st. induction s as [|c s IH]; intros st; cbn [binascii.a2b_loop].
  - unfold binascii.a2b_finish, with_prefix. cbn [binascii.quad_pos].
    destruct (binascii.quad_pos st =? 0).
    + now intros [= <-].
    + destruct (binascii.quad_pos st =? 1); discriminate.
  - rewrite a2b_step_with_prefix.
    destruct (binascii.a2b_step st c) as [|st'].
    + now intros [= <-].
    + apply IH.
Qed.

(** Counting: data characters read against bytes written. *)
Lemma a2b_loop_data_count (D : bytes) (st : binascii.a2b_state) (k : N) :
  forallb is_data D = true ->
  binascii.quad_pos st < 4 ->
  3 * k = 4 * N.of_nat (List.length (binascii.bin_data st))
          + quad_debt (binascii.quad_pos st) ->
  exists st',
    binascii.a2b_loop D st = binascii.a2b_finish st' /\
    binascii.quad_pos st' < 4 /\
    3 * (k + N.of_nat (List.length D))
    = 4 * N.of_nat (List.length (binascii.bin_data st'))
      + quad_debt (binascii.quad_pos st').
Proof.
  revert st k. induction D as [|c D IH]; intros st k HD Hq Hk.
  - exists st. cbn [List.length N.of_nat]. rewrite N.add_0_r. auto.
  - cbn [forallb] in HD. apply andb_true_iff in HD as [Hc HD].
    assert (exists st1, binascii.a2b_step st c = binascii.Continue st1 /\
              binascii.quad_pos st1 < 4 /\
              3 * (k + 1)
              = 4 * N.of_nat (List.length (binascii.bin_data st1))
                + quad_debt (binascii.quad_pos st1))
      as (st1 & Hstep & Hq1 & Hk1).
    { rewrite (a2b_step_data st c Hc). cbv zeta.
      destruct st as [q l pd out].
      cbn [binascii.quad_pos binascii.bin_data] in *.
      assert (q = 0 \/ q = 1 \/ q = 2 \/ q = 3) as [-> | [-> | [-> | ->]]]
        by lia;
        cbn [N.eqb Pos.eqb]; eexists; (split; [reflexivity|]);
        unfold binascii.emit;
        cbn [binascii.quad_pos binascii.bin_data];
        rewrite ?length_app; cbn [List.length];
        unfold quad_debt in *; cbn [N.eqb Pos.eqb] in *; split; lia. }
    destruct (IH st1 (k + 1) HD Hq1 Hk1) as (st' & Hloop & Hq' & Hk').
    exists st'. repeat split; auto.
    + rewrite (a2b_loop_continue _ _ _ _ Hstep). exact Hloop.
    + cbn [List.length]. rewrite Nat2N.inj_succ. lia.
Qed.

Lemma filter_significant_no_pad (s : text) :
  forallb (fun c => negb (c =? binascii.BASE64_PAD)) s = true ->
  filter significant s = filter is_data s.
Proof.
  induction s as [|c s IH]; cbn [forallb filter]; intros H; [reflexivity|].
  apply andb_true_iff in H as [Hc Hs]. rewrite (IH Hs).
  unfold significant, is_data. rewrite Hc.
  apply negb_true_iff in Hc. now rewrite Hc.
Qed.

Lemma filter_is_data_all (s : text) : forallb is_data (filter is_data s) = true.
Proof.
  induction s as [|c s IH]; cbn [filter]; [reflexivity|].
  destruct (is_data c) eqn:Hc; cbn [forallb]; [rewrite Hc|]; auto.
Qed.

(** The result of decoding an ASCII text without pad characters, by the
    number of its data characters. *)
Lemma b64decode_no_pad (s : text) :
  Str.isascii s = true ->
  forallb (fun c => negb (c =? binascii.BASE64_PAD)) s = true ->
  exists st,
    base64.b64decode s = binascii.a2b_finish st /\
    binascii.quad_pos st < 4 /\
    3 * N.of_nat (List.length (filter is_data s))
    = 4 * N.of_nat (List.length (binascii.bin_data st))
      + quad_debt (binascii.quad_pos st).
Proof.
  intros Ha Hp. rewrite (b64decode_ascii s Ha).
  unfold binascii.a2b_base64.
  rewrite a2b_loop_filter, (filter_significant_no_pad s Hp).
  destruct (a2b_loop_data_count (filter is_data s) binascii.a2b_init 0)
    as (st & Hloop & Hq & Hk).
  - apply filter_is_data_all.
  - reflexivity.
  - reflexivity.
  - exists st. rewrite N.add_0_l in Hk. auto.
Qed.

(** Line endings. *)
Lemma translate_to_crlf (s : text) :
  forallb (fun c => negb (c =? 13)) s = true ->
  translate_newlines (to_crlf s) = s.
Proof.
  unfold to_crlf.
  induction s as [|c s IH]; cbn [forallb flat_map]; intros H; [reflexivity|].
  apply andb_true_iff in H as [Hc Hs]. apply negb_true_iff in Hc.
  destruct (c =? 10) eqn:Hlf.
  - apply N.eqb_eq in Hlf. subst c. cbn [app].
    change (translate_newlines (13 :: 10 :: ?r))
      with (10 :: translate_newlines r).
    now rewrite IH.
  - cbn [app]. rewrite translate_other by now apply N.eqb_neq.
    now rewrite IH.
Qed.

(** The data characters of an encoding, counted. *)
Lemma b64encode_data_count (B : bytes) :
  Forall is_byte B ->
  N.of_nat (List.length (filter is_data (base64.b64encode B)))
  = 4 * N.of_nat (List.length B / 3)
    + match (List.length B mod 3)%nat with
      | O => 0
      | S O => 2
      | _ => 3
      end.
Proof.
  induction B as [|a|a b|a b c r IH] using list_ind3; intros HB.
  - reflexivity.
  - inversion_clear HB as [|? ? Ha _].
    assert (H0 : 0 < 256) by lia.
    destruct (first_byte a 0 Ha H0) as (H1 & H2 & _). cbv zeta in *.
    rewrite N.lor_0_r in H2.
    destruct (sextet_table _ H1) as (_ & D1 & _).
    destruct (sextet_table _ H2) as (_ & D2 & _).
    cbn [base64.b64encode filter]. rewrite D1, D2. reflexivity.
  - inversion_clear HB as [|? ? Ha HB']. inversion_clear HB' as [|? ? Hb _].
    assert (H0 : 0 < 256) by lia.
    destruct (first_byte a b Ha Hb) as (H1 & H2 & _).
    destruct (last_bytes b 0 Hb H0) as (H3 & _). cbv zeta in *.
    rewrite N.lor_0_r in H3.
    destruct (sextet_table _ H1) as (_ & D1 & _).
    destruct (sextet_table _ H2) as (_ & D2 & _).
    destruct (sextet_table _ H3) as (_ & D3 & _).
    cbn [base64.b64encode filter]. rewrite D1, D2, D3. reflexivity.
  - inversion_clear HB as [|? ? Ha HB']. inversion_clear HB' as [|? ? Hb HB].
    inversion_clear HB as [|? ? Hc Hr].
    destruct (first_byte a b Ha Hb) as (H1 & H2 & _).
    destruct (last_bytes b c Hb Hc) as (H3 & H4 & _). cbv zeta in *.
    destruct (sextet_table _ H1) as (_ & D1 & _).
    destruct (sextet_table _ H2) as (_ & D2 & _).
    destruct (sextet_table _ H3) as (_ & D3 & _).
    destruct (sextet_table _ H4) as (_ & D4 & _).
    cbn [base64.b64encode filter]. rewrite D1, D2, D3, D4.
    cbn [List.length]. rewrite length_mod3_step.
    replace (S (S (S (List.length r))) / 3)%nat
      with (S (List.length r / 3))%nat.
    + rewrite !Nat2N.inj_succ, (IH Hr). lia.
    + replace (S (S (S (List.length r)))) with (List.length r + 1 * 3)%nat
        by lia.
      rewrite Nat.div_add by discriminate. lia.
Qed.

Lemma translate_no_cr (s : text) :
  forallb (fun c => negb (c =? 13)) s = true -> translate_newlines s = s.
Proof.
  induction s as [|c s IH]; cbn [forallb]; intros H; [reflexivity|].
  apply andb_true_iff in H as [Hc Hs]. apply negb_true_iff in Hc.
  rewrite translate_other by now apply N.eqb_neq.
  now rewrite IH.
Qed.

Lemma filter_is_data_no_pad (s : text) :
  forallb (fun c => negb (c =? binascii.BASE64_PAD)) (filter is_data s) = true.
Proof.
  induction s as [|c s IH]; cbn [filter]; [reflexivity|].
  destruct (is_data c) eqn:Hc; [|exact IH].
  cbn [forallb]. rewrite IH.
  unfold is_data in Hc. apply andb_true_iff in Hc as [-> _]. reflexivity.
Qed.

Lemma b64decode_two_and_pads (s1 s2 : N) :
  s1 < 64 -> s2 < 64 ->
  base64.b64decode
    [binascii.b2a s1; binascii.b2a s2; binascii.BASE64_PAD; binascii.BASE64_PAD]
  = inl [binascii.u8 (N.lor (N.shiftl s1 2) (N.shiftr s2 4))].
Proof.
  intros H1 H2.
  destruct (sextet_table s1 H1) as (_ & _ & A1 & _).
  destruct (sextet_table s2 H2) as (_ & _ & A2 & _).
  rewrite b64decode_ascii.
  - unfold binascii.a2b_base64, binascii.a2b_init.
    rewrite (a2b_loop_continue _ _ _ _ (a2b_step_q0 _ 0 0 [] H1)).
    rewrite (a2b_loop_continue _ _ _ _ (a2b_step_q1 _ _ 0 [] H2)).
    reflexivity.
  - unfold Str.isascii. cbn [forallb]. now rewrite A1, A2.
Qed.

(** ** The properties *)

(** X1. An input file that is empty or holds only whitespace is decoded to
    nothing: the run succeeds, the output file is created or emptied, and
    the confirmation is printed. *)
Theorem blank_input_gives_empty_output (chars : text) (out : option bytes)
    (so : list string) :
  forallb Str.isspace chars = true ->
  run (mk_world (Content chars) out so)
  = (inl tt, mk_world (Content chars) (Some []) (so ++ [confirmation])).
Proof.
  intros H.
  apply (run_decoded (mk_world (Content chars) out so) chars [] eq_refl).
  now rewrite (data_of_spaces chars H).
Qed.

Lemma blank_input_gives_empty_output_witness :
  forallb Str.isspace [32; 9; 13; 10; 160] = true /\
  run (mk_world (Content [32; 9; 13; 10; 160]) (Some zip_magic) [])
  = (inl tt, mk_world (Content [32; 9; 13; 10; 160]) (Some []) [confirmation]).
Proof.
  split; [reflexivity|].
  exact (blank_input_gives_empty_output [32; 9; 13; 10; 160]
           (Some zip_magic) [] eq_refl).
Defined.

(** X2. The confirmation is printed exactly when the run succeeds: a
    successful run adds that one line to standard output, a failed run adds
    nothing. *)
Theorem confirmation_exactly_on_success (w : world) :
  (outcome w = inl tt /\ stdout (after w) = stdout w ++ [confirmation]) \/
  (failed (outcome w) /\ stdout (after w) = stdout w).
Proof.
  unfold outcome, after, failed.
  destruct (run_cases w) as [(e & _ & Hrun)|[(chars & e & _ & _ & Hrun)|
                             (chars & decoded & _ & _ & Hrun)]];
    rewrite Hrun; cbn [fst snd stdout]; eauto.
Qed.

(** X3. With a readable input file, neither the outcome nor the final
    output file depends on what the output path held before, and the
    output file exists afterwards. *)
Theorem prior_output_is_irrelevant (chars : text) (out out' : option bytes)
    (so : list string) :
  outcome (mk_world (Content chars) out so)
  = outcome (mk_world (Content chars) out' so) /\
  output_file (after (mk_world (Content chars) out so))
  = output_file (after (mk_world (Content chars) out' so)) /\
  output_file (after (mk_world (Content chars) out so)) <> None.
Proof.
  unfold outcome, after.
  destruct (base64.b64decode (data_of chars)) as [decoded|e] eqn:Hdec.
  - rewrite (run_decoded (mk_world (Content chars) out so) chars decoded
               eq_refl Hdec).
    rewrite (run_decoded (mk_world (Content chars) out' so) chars decoded
               eq_refl Hdec).
    repeat split; discriminate.
  - rewrite (run_decode_error (mk_world (Content chars) out so) chars e
               eq_refl Hdec).
    rewrite (run_decode_error (mk_world (Content chars) out' so) chars e
               eq_refl Hdec).
    repeat split; discriminate.
Qed.

(** X4. Round trip through wrapped text: if the input is ASCII text whose
    alphabet and pad characters, in order, are the encoding of [B], with
    line breaks, blanks or other characters anywhere between them, the run
    succeeds and the output file holds exactly [B]. *)
Theorem round_trip_through_wrapped_text (B : bytes) (s : text)
    (out : option bytes) (so : list string) :
  Forall is_byte B ->
  Str.isascii s = true ->
  filter significant s = base64.b64encode B ->
  outcome (mk_world (Content s) out so) = inl tt /\
  output_file (after (mk_world (Content s) out so)) = Some B.
Proof.
  intros HB Ha Hs. unfold outcome, after.
  rewrite (run_decoded (mk_world (Content s) out so) s B eq_refl); auto.
  rewrite b64decode_data_of.
  rewrite b64decode_filter by now apply isascii_strip.
  rewrite filter_significant_strip, Hs.
  now apply b64decode_b64encode.
Qed.

Lemma round_trip_through_wrapped_text_witness :
  Forall is_byte zip_magic /\
  Str.isascii ([32] ++ text_of_string "UEsD" ++ [13; 10]
               ++ text_of_string "BA==" ++ [10]) = true /\
  filter significant ([32] ++ text_of_string "UEsD" ++ [13; 10]
                      ++ text_of_string "BA==" ++ [10])
  = base64.b64encode zip_magic /\
  output_file
    (after (mk_world (Content ([32] ++ text_of_string "UEsD" ++ [13; 10]
                               ++ text_of_string "BA==" ++ [10])) None []))
  = Some zip_magic.
Proof.
  assert (H : Forall is_byte zip_magic) by (repeat constructor).
  split; [exact H|]. split; [reflexivity|]. split; [reflexivity|].
  apply (round_trip_through_wrapped_text zip_magic
           ([32] ++ text_of_string "UEsD" ++ [13; 10]
            ++ text_of_string "BA==" ++ [10]) None [] H eq_refl eq_refl).
Defined.

(** X5. Text after a completed padding is not read: when the length of
    [B] is no multiple of three, so that its encoding ends with padding,
    any ASCII text put after the encoding is ignored and the decoding is
    [B]. *)
Theorem text_after_padding_is_ignored (B : bytes) (tail : text) :
  Forall is_byte B ->
  (List.length B mod 3 <> 0)%nat ->
  Str.isascii tail = true ->
  base64.b64decode (base64.b64encode B ++ tail) = inl B.
Proof.
  intros HB Hlen Ht. rewrite b64decode_ascii.
  - unfold binascii.a2b_base64, binascii.a2b_init.
    now rewrite a2b_loop_b64encode_padded.
  - unfold Str.isascii in *. rewrite forallb_app, Ht.
    fold (Str.isascii (base64.b64encode B)).
    now rewrite (plain_isascii _ (b64encode_plain B HB)).
Qed.

Lemma text_after_padding_is_ignored_witness :
  Forall is_byte zip_magic /\
  (List.length zip_magic mod 3 <> 0)%nat /\
  Str.isascii hello_b64 = true /\
  base64.b64decode (base64.b64encode zip_magic ++ hello_b64) = inl zip_magic.
Proof.
  assert (H : Forall is_byte zip_magic) by (repeat constructor).
  assert (Hlen : (List.length zip_magic mod 3 <> 0)%nat) by discriminate.
  split; [exact H|]. split; [exact Hlen|]. split; [reflexivity|].
  exact (text_after_padding_is_ignored zip_magic hello_b64 H Hlen eq_refl).
Defined.

(** X6. An encoding without padding can be continued: when the length of
    [B1] is a multiple of three, text that decodes to [B2], put after the
    encoding of [B1], decodes to [B1] followed by [B2]. *)
Theorem unpadded_encoding_can_be_continued (B1 B2 : bytes) (s : text) :
  Forall is_byte B1 ->
  (List.length B1 mod 3 = 0)%nat ->
  base64.b64decode s = inl B2 ->
  base64.b64decode (base64.b64encode B1 ++ s) = inl (B1 ++ B2).
Proof.
  intros HB Hlen Hs. pose proof (b64decode_ok_ascii s B2 Hs) as Ha.
  rewrite (b64decode_ascii s Ha) in Hs. rewrite b64decode_ascii.
  - unfold binascii.a2b_base64, binascii.a2b_init in *.
    rewrite a2b_loop_b64encode_full by assumption. cbn [app].
    rewrite <- (app_nil_r B1) at 1.
    exact (a2b_loop_with_prefix B1 s (binascii.mk_a2b 0 0 0 []) B2 Hs).
  - unfold Str.isascii in *. rewrite forallb_app, Ha.
    fold (Str.isascii (base64.b64encode B1)).
    now rewrite (plain_isascii _ (b64encode_plain B1 HB)).
Qed.

Lemma unpadded_encoding_can_be_continued_witness :
  Forall is_byte [80; 75; 3] /\
  (List.length [80; 75; 3] mod 3 = 0)%nat /\
  base64.b64decode hello_b64 = inl hello /\
  base64.b64decode (base64.b64encode [80; 75; 3] ++ hello_b64)
  = inl ([80; 75; 3] ++ hello).
Proof.
  assert (H : Forall is_byte [80; 75; 3]) by (repeat constructor).
  split; [exact H|]. split; [reflexivity|]. split; [reflexivity|].
  exact (unpadded_encoding_can_be_continued [80; 75; 3] hello hello_b64
           H eq_refl eq_refl).
Defined.

(** X7. ASCII text without pad characters is judged by the number [n] of
    its data characters: a multiple of four decodes, to [3 * n / 4] bytes;
    one more than a multiple of four raises the invalid-length error, which
    reports [n]; two or three more raise the incorrect-padding error. *)
Theorem unpadded_text_by_count (s : text) :
  Str.isascii s = true ->
  forallb (fun c => negb (c =? binascii.BASE64_PAD)) s = true ->
  let n := N.of_nat (List.length (filter is_data s)) in
  (n mod 4 = 0 ->
   exists r, base64.b64decode s = inl r /\ 4 * N.of_nat (List.length r) = 3 * n)
  /\ (n mod 4 = 1 ->
      base64.b64decode s = inr (binascii_Error (Invalid_length n)))
  /\ (2 <= n mod 4 ->
      base64.b64decode s = inr (binascii_Error Incorrect_padding)).
Proof.
  intros Ha Hp n.
  destruct (b64decode_no_pad s Ha Hp) as ([q l pd out] & Hdec & Hq & Hk).
  fold n in Hk. cbn [binascii.quad_pos binascii.bin_data] in Hq, Hk.
  rewrite Hdec. unfold binascii.a2b_finish.
  cbn [binascii.quad_pos binascii.bin_data].
  pose proof (N.div_mod n 4 ltac:(discriminate)) as Hn4.
  pose proof (N.mod_lt n 4 ltac:(discriminate)) as Hn4'.
  pose proof (N.div_mod (N.of_nat (List.length out)) 3 ltac:(discriminate))
    as Hl3.
  pose proof (N.mod_lt (N.of_nat (List.length out)) 3 ltac:(discriminate))
    as Hl3'.
  assert (q = 0 \/ q = 1 \/ q = 2 \/ q = 3) as [-> | [-> | [-> | ->]]] by lia;
    unfold quad_debt in Hk; cbn [N.eqb Pos.eqb] in Hk |- *;
    (split; [|split]); intros Hmod; try lia.
  - exists out. split; [reflexivity|lia].
  - assert (E : N.of_nat (List.length out) / 3 * 4 + 1 = n).
    { remember (N.of_nat (List.length out)) as m eqn:Em.
      remember (m / 3) as a eqn:Eda. remember (m mod 3) as b eqn:Eb.
      clear Em Eda Eb Hdec.
      assert (b = 0 \/ b = 1 \/ b = 2) as [-> | [-> | ->]] by lia; lia. }
    now rewrite E.
  - reflexivity.
  - reflexivity.
Qed.

Lemma unpadded_text_by_count_witness :
  Str.isascii (text_of_string "aGVs bG8hI") = true /\
  forallb (fun c => negb (c =? binascii.BASE64_PAD))
    (text_of_string "aGVs bG8hI") = true /\
  base64.b64decode (text_of_string "aGVs bG8hI")
  = inr (binascii_Error (Invalid_length 9)).
Proof.
  split; [reflexivity|]. split; [reflexivity|].
  destruct (unpadded_text_by_count (text_of_string "aGVs bG8hI")
              eq_refl eq_refl) as (_ & H & _).
  apply H. reflexivity.
Defined.

(** X9. Line endings: a text without carriage returns, saved with each
    line feed as carriage return and line feed, gives the same outcome,
    output file and printed lines as the text itself. *)
Theorem crlf_line_endings_tolerated (s : text) (out : option bytes)
    (so : list string) :
  forallb (fun c => negb (c =? 13)) s = true ->
  outcome (mk_world (Content (to_crlf s)) out so)
  = outcome (mk_world (Content s) out so) /\
  output_file (after (mk_world (Content (to_crlf s)) out so))
  = output_file (after (mk_world (Content s) out so)) /\
  stdout (after (mk_world (Content (to_crlf s)) out so))
  = stdout (after (mk_world (Content s) out so)).
Proof.
  intros H. apply run_depends_on_data. unfold data_of.
  now rewrite (translate_to_crlf s H), (translate_no_cr s H).
Qed.

Lemma crlf_line_endings_tolerated_witness :
  forallb (fun c => negb (c =? 13))
    (text_of_string "aGVs" ++ [10] ++ text_of_string "bG8=" ++ [10]) = true /\
  to_crlf (text_of_string "aGVs" ++ [10] ++ text_of_string "bG8=" ++ [10])
  = text_of_string "aGVs" ++ [13; 10] ++ text_of_string "bG8=" ++ [13; 10] /\
  output_file
    (after (mk_world
              (Content (to_crlf (text_of_string "aGVs" ++ [10]
                                 ++ text_of_string "bG8=" ++ [10])))
              None []))
  = output_file
      (after (mk_world
                (Content (text_of_string "aGVs" ++ [10]
                          ++ text_of_string "bG8=" ++ [10]))
                None [])).
Proof.
  split; [reflexivity|]. split; [reflexivity|].
  apply (crlf_line_endings_tolerated
           (text_of_string "aGVs" ++ [10] ++ text_of_string "bG8=" ++ [10])
           None [] eq_refl).
Defined.

(** X10. The decoder accepts encodings that are not canonical: two
    alphabet characters followed by a double padding decode, to the one
    byte made of the six bits of the first and the two high bits of the
    second; the four low bits of the second are dropped, so another second
    character with the same two high bits is accepted too and gives that
    same byte. *)
Theorem trailing_bits_are_ignored (s1 s2 s2' : N) :
  s1 < 64 -> s2 < 64 -> s2' < 64 ->
  N.shiftr s2 4 = N.shiftr s2' 4 ->
  base64.b64decode
    [binascii.b2a s1; binascii.b2a s2; binascii.BASE64_PAD; binascii.BASE64_PAD]
  = inl [binascii.u8 (N.lor (N.shiftl s1 2) (N.shiftr s2 4))] /\
  base64.b64decode
    [binascii.b2a s1; binascii.b2a s2'; binascii.BASE64_PAD;
     binascii.BASE64_PAD]
  = inl [binascii.u8 (N.lor (N.shiftl s1 2) (N.shiftr s2 4))].
Proof.
  intros H1 H2 H2' E.
  rewrite !b64decode_two_and_pads by assumption. now rewrite E.
Qed.

Lemma trailing_bits_are_ignored_witness :
  24 < 64 /\ 16 < 64 /\ 17 < 64 /\ N.shiftr 16 4 = N.shiftr 17 4 /\
  base64.b64decode (text_of_string "YQ==") = inl [97] /\
  base64.b64decode (text_of_string "YR==") = inl [97].
Proof.
  assert (H1 : 24 < 64) by reflexivity.
  assert (H2 : 16 < 64) by reflexivity.
  assert (H3 : 17 < 64) by reflexivity.
  do 4 (split; [reflexivity|]).
  exact (trailing_bits_are_ignored 24 16 17 H1 H2 H3 eq_refl).
Defined.

(** X11. Padding is required: when the length of [B] is no multiple of
    three, the encoding of [B] with its pad characters left out is
    rejected; the run fails with the incorrect-padding error, leaves the
    output file empty and prints nothing. *)
Theorem unpadded_encoding_is_rejected (B : bytes) (out : option bytes)
    (so : list string) :
  Forall is_byte B ->
  (List.length B mod 3 <> 0)%nat ->
  run (mk_world (Content (filter is_data (base64.b64encode B))) out so)
  = (inr (binascii_Error Incorrect_padding),
     mk_world (Content (filter is_data (base64.b64encode B))) (Some []) so).
Proof.
  intros HB Hlen.
  pose proof (forallb_filter_keeps plain is_data _ (b64encode_plain B HB))
    as Hplain.
  apply (run_decode_error
           (mk_world (Content (filter is_data (base64.b64encode B))) out so)
           (filter is_data (base64.b64encode B)) _ eq_refl).
  rewrite (data_of_plain_text _ Hplain).
  destruct (b64decode_no_pad (filter is_data (base64.b64encode B)))
    as ([q l pd r] & Hdec & Hq & Hk).
  - now apply plain_isascii.
  - apply filter_is_data_no_pad.
  - rewrite Hdec. cbn [binascii.quad_pos binascii.bin_data] in Hq, Hk.
    assert (Hidem : filter is_data (filter is_data (base64.b64encode B))
                    = filter is_data (base64.b64encode B)).
    { apply forallb_filter_id, filter_is_data_all. }
    rewrite Hidem, (b64encode_data_count B HB) in Hk.
    unfold binascii.a2b_finish. cbn [binascii.quad_pos].
    assert (q = 2 \/ q = 3) as [-> | ->]; [|reflexivity|reflexivity].
    unfold quad_debt in Hk.
    destruct (List.length B mod 3)%nat as [|[|m]]; [now contradiction Hlen| |];
      assert (q = 0 \/ q = 1 \/ q = 2 \/ q = 3) as [-> | [-> | [-> | ->]]]
        by lia; cbn [N.eqb Pos.eqb] in Hk; lia.
Qed.

Lemma unpadded_encoding_is_rejected_witness :
  Forall is_byte zip_magic /\
  (List.length zip_magic mod 3 <> 0)%nat /\
  filter is_data (base64.b64encode zip_magic) = text_of_string "UEsDBA" /\
  run (mk_world (Content (filter is_data (base64.b64encode zip_magic)))
         (Some hello) [])
  = (inr (binascii_Error Incorrect_padding),
     mk_world (Content (filter is_data (base64.b64encode zip_magic)))
       (Some []) []).
Proof.
  assert (H : Forall is_byte zip_magic) by (repeat constructor).
  assert (Hlen : (List.length zip_magic mod 3 <> 0)%nat) by discriminate.
  split; [exact H|]. split; [exact Hlen|]. split; [reflexivity|].
  exact (unpadded_encoding_is_rejected zip_magic (Some hello) [] H Hlen).
Defined.
